(** * The Hyperfy client of an Eliza agent: one turn of the REST handler

    A shallow embedding of [src/client.ts]: the POST handler
    [/agents/:agentIdOrName/hyperfy] of [HyperfyClient], its schema builder
    [createHyperfyOutSchema], the composition of the reply text and the
    background promise that stores the reply and dispatches an action.

    The handler is asynchronous and effectful.  Its effects are calls to
    collaborators (the agent runtime, the generative backend, the HTTP
    response); a turn is modelled as the list of these calls in the order in
    which the event loop performs them.  What a collaborator answers is an
    input of the model. *)

From Stdlib Require Import String Ascii List Bool ZArith Lia DecimalString.
Import ListNotations.
Open Scope string_scope.

Set Warnings "-register-all".

(** ** JavaScript values *)

(** The values a JSON-like JavaScript object is made of.  An object is kept
    as its list of own properties; reading a property takes the first entry
    of that name. *)
Inductive value : Type :=
| VUndefined
| VNull
| VBool (b : bool)
| VNum (n : Z)
| VStr (s : string)
| VArr (items : list value)
| VObj (props : list (string * value)).

(** [o[k]] on the property list of an object: [undefined] when absent. *)
Fixpoint get (props : list (string * value)) (k : string) : value :=
  match props with
  | [] => VUndefined
  | (k', v) :: rest => if String.eqb k' k then v else get rest k
  end.

(** A value of TypeScript type [string | null]. *)
Definition of_nullable_string (o : option string) : value :=
  match o with
  | Some s => VStr s
  | None => VNull
  end.

(** A value of TypeScript type [string[] | null]. *)
Definition of_nullable_strings (o : option (list string)) : value :=
  match o with
  | Some l => VArr (map VStr l)
  | None => VNull
  end.

(** Reading a value known to be [string | null]. *)
Definition as_nullable_string (v : value) : option string :=
  match v with
  | VStr s => Some s
  | _ => None
  end.

(** The strings of an array of strings. *)
Fixpoint as_strings (l : list value) : list string :=
  match l with
  | [] => []
  | VStr s :: rest => s :: as_strings rest
  | _ :: rest => as_strings rest
  end.

(** Reading a value known to be [string[] | null]. *)
Definition as_nullable_strings (v : value) : option (list string) :=
  match v with
  | VArr l => Some (as_strings l)
  | _ => None
  end.

(** What [await] observes of a promise. *)
Inductive awaited (A : Type) : Type :=
| Resolved (a : A)
| Rejected.

Arguments Resolved {A} a.
Arguments Rejected {A}.

(** ** The part of zod the client uses *)

Module Zod.

(** The schemas [createHyperfyOutSchema] builds: [z.literal] of a string,
    [z.string()], [z.null()], [z.union], [z.array], [.nullable()] and
    [z.object]. *)
Inductive ZodType : Type :=
| literal (s : string)
| string_
| null
| union (options : list ZodType)
| array (element : ZodType)
| nullable (inner : ZodType)
| object (shape : list (string * ZodType)).

(** [schema.parse(v)]: [Some] of the parsed output, [None] where zod throws
    a [ZodError].  A union returns the output of its first option that
    accepts the input; an object reads each key of its shape from the input
    (an absent key is [undefined]) and drops every other key. *)
Fixpoint parse (t : ZodType) (v : value) {struct t} : option value :=
  match t with
  | literal s =>
      match v with
      | VStr x => if String.eqb x s then Some v else None
      | _ => None
      end
  | string_ =>
      match v with
      | VStr _ => Some v
      | _ => None
      end
  | null =>
      match v with
      | VNull => Some VNull
      | _ => None
      end
  | union options =>
      (fix first (os : list ZodType) : option value :=
         match os with
         | [] => None
         | o :: os' =>
             match parse o v with
             | Some r => Some r
             | None => first os'
             end
         end) options
  | array element =>
      match v with
      | VArr items =>
          option_map VArr
            ((fix each (l : list value) : option (list value) :=
                match l with
                | [] => Some []
                | x :: l' =>
                    match parse element x, each l' with
                    | Some y, Some ys => Some (y :: ys)
                    | _, _ => None
                    end
                end) items)
      | _ => None
      end
  | nullable inner =>
      match v with
      | VNull => Some VNull
      | _ => parse inner v
      end
  | object shape =>
      match v with
      | VObj props =>
          option_map VObj
            ((fix fields (sh : list (string * ZodType))
                : option (list (string * value)) :=
                match sh with
                | [] => Some []
                | (k, t') :: sh' =>
                    match parse t' (get props k), fields sh' with
                    | Some y, Some ys => Some ((k, y) :: ys)
                    | _, _ => None
                    end
                end) shape)
      | _ => None
      end
  end.

End Zod.

(** ** The decision of a turn *)

(** The four fields of the object the schema describes, after validation:
    [null] is [None]. *)
Record Decision : Type := {
  lookAt : option string;
  emote : option string;
  say : option string;
  actions : option (list string)
}.

(** The JavaScript object of a decision, keys in the order of the schema. *)
Definition value_of_decision (d : Decision) : value :=
  VObj [("lookAt", of_nullable_string (lookAt d));
        ("emote", of_nullable_string (emote d));
        ("say", of_nullable_string (say d));
        ("actions", of_nullable_strings (actions d))].

(** The fields the handler reads from the parsed object [hfOut]. *)
Definition decision_of_value (hfOut : value) : Decision :=
  match hfOut with
  | VObj props =>
      {| lookAt := as_nullable_string (get props "lookAt");
         emote := as_nullable_string (get props "emote");
         say := as_nullable_string (get props "say");
         actions := as_nullable_strings (get props "actions") |}
  | _ => {| lookAt := None; emote := None; say := None; actions := None |}
  end.

(** ** The request *)

(** The JSON body of a request: [roomId], [emotes] and [triggers] are the
    keys the handler reads, [None] when the key is absent; the other keys
    are only serialised into the prompt.  The handler takes [body: any];
    the model covers the bodies whose [roomId], when present, is a string
    and whose [emotes] and [triggers], when present, are arrays of
    strings. *)
Record Body : Type := {
  roomId : option string;
  emotes : option (list string);
  triggers : option (list string);
  extra : list (string * value)
}.

Record Request : Type := {
  agentIdOrName : string;
  body : Body
}.

(** ** createHyperfyOutSchema (client.ts, lines 145-190) *)

(** [body.emotes || []]. *)
Definition or_empty (o : option (list string)) : list string :=
  match o with
  | Some l => l
  | None => []
  end.

(** The schema of [lookAt] and of [emote] for a vocabulary: with entries, a
    union of the union of their literals, any string and null; without,
    any string or null. *)
Definition vocabularySchema (vocabulary : list string) : Zod.ZodType :=
  match vocabulary with
  | _ :: _ =>
      Zod.union [Zod.union (map Zod.literal vocabulary); Zod.string_; Zod.null]
  | [] => Zod.union [Zod.string_; Zod.null]
  end.

Definition createHyperfyOutSchema (body : Body) : Zod.ZodType :=
  let emotes := or_empty (emotes body) in
  let triggers := or_empty (triggers body) in
  let lookAtSchema := vocabularySchema triggers in
  let emoteSchema := vocabularySchema emotes in
  Zod.object [("lookAt", lookAtSchema);
              ("emote", emoteSchema);
              ("say", Zod.nullable Zod.string_);
              ("actions", Zod.nullable (Zod.array Zod.string_))].

(** ** Records of @elizaos/core the client builds *)

Definition UUID : Type := string.

(** The state [composeState] returns; the client only passes it on. *)
Definition State : Type := list (string * string).

(** [Content]: [text] is [None] for [null], [action] and [source] are [None]
    when the property is absent or [undefined], [attachments] likewise.  The
    client sets [inReplyTo] to [undefined] only, so it has no field here. *)
Record Content : Type := {
  text : option string;
  action : option string;
  source : option string;
  attachments : option (list value)
}.

(** [userMessage] and [responseMessage]. *)
Record Message : Type := {
  msg_content : Content;
  msg_userId : UUID;
  msg_roomId : UUID;
  msg_agentId : UUID
}.

(** [Memory], as built for the evaluators and the action handlers. *)
Record Memory : Type := {
  id : UUID;
  mem_agentId : UUID;
  mem_userId : UUID;
  mem_roomId : UUID;
  mem_content : Content;
  createdAt : Z
}.

(** What the handler uses of an agent runtime.  The three methods are
    asynchronous; each answers with what its promise settles to.
    [createMemory] is [runtime.messageManager.createMemory].
    [runtime.processActions] is called and its promise dropped, so its
    answer is not part of the model. *)
Record IAgentRuntime : Type := {
  agentId : UUID;
  character_name : string;
  composeState : Message -> awaited State;
  createMemory : Message -> awaited unit;
  evaluate : Memory -> State -> awaited unit
}.

(** The imports from @elizaos/core and the built-ins of the platform whose
    code is not part of the client. *)
Class Host : Type := {
  stringToUuid : string -> UUID;
  composeContext : State -> string -> string;
  (** [generateObject({runtime, context, modelClass, schema})]: rejected, or
      resolved to a falsy response ([None]) or to a response whose [object]
      is the given value. *)
  generateObject : IAgentRuntime -> string -> Zod.ZodType -> awaited (option value);
  (** [JSON.stringify(body)] and [JSON.stringify(body, null, 2)]. *)
  JSON_stringify : Body -> string;
  JSON_stringify_indent : Body -> string;
  (** [String.prototype.toLowerCase]. *)
  toLowerCase : string -> string;
  (** [Date.now()], by the number of reads before it in the turn. *)
  Date_now : nat -> Z;
  (** [Number.prototype.toString]. *)
  Number_toString : Z -> string
}.

(** ** String built-ins *)

(** [a.join(sep)] on an array of strings. *)
Definition join (a : list string) (sep : string) : string :=
  String.concat sep a.

(** The text of a replacement string of [String.prototype.replace]: [$$] is
    a dollar, [$&] the match, [$`] what precedes it and [$'] what follows. *)
Fixpoint expand (replacement before matched after : string) : string :=
  match replacement with
  | String "$" (String "$" r) => "$" ++ expand r before matched after
  | String "$" (String "&" r) => matched ++ expand r before matched after
  | String "$" (String "`" r) => before ++ expand r before matched after
  | String "$" (String "'" r) => after ++ expand r before matched after
  | String c r => String c (expand r before matched after)
  | EmptyString => EmptyString
  end.

Fixpoint drop (n : nat) (s : string) : string :=
  match n, s with
  | S n', String _ s' => drop n' s'
  | _, _ => s
  end.

(** The first occurrence of [pattern] in [s]: what precedes and what
    follows it. *)
Fixpoint split_at (pattern s : string) : option (string * string) :=
  if String.prefix pattern s then Some (EmptyString, drop (String.length pattern) s)
  else
    match s with
    | EmptyString => None
    | String c s' =>
        match split_at pattern s' with
        | Some (before, after) => Some (String c before, after)
        | None => None
        end
    end.

(** [s.replace(pattern, replacement)] with a string pattern: the first
    occurrence only. *)
Definition replace (s pattern replacement : string) : string :=
  match split_at pattern s with
  | Some (before, after) =>
      before ++ expand replacement before pattern after ++ after
  | None => s
  end.

(** [t += s] on a text that is a string or [null]. *)
Definition append_to (t : option string) (s : string) : option string :=
  match t with
  | Some x => Some (x ++ s)
  | None => Some ("null" ++ s)
  end.

(** Truthiness of a string that may be [undefined]. *)
Definition truthy (o : option string) : bool :=
  match o with
  | Some s => negb (String.eqb s EmptyString)
  | None => false
  end.

(** [o ?? d]. *)
Definition nullish_or (o : option string) (d : string) : string :=
  match o with
  | Some s => s
  | None => d
  end.

(** ** The turn *)

(** The prompt template (client.ts, lines 19-53); [dq] is the double quote. *)
Definition dq : string := String (ascii_of_nat 34) EmptyString.

Definition hyperfyHandlerTemplate : string :=
  "{{actionExamples}}
(Action examples are for reference only. Do not use the information from them in your response.)

# Knowledge
{{knowledge}}

# About {{agentName}}:
{{bio}}
{{lore}}

{{providers}}

{{attachments}}

# Capabilities
Note that {{agentName}} is capable of reading/seeing/hearing various forms of media, including images, videos, audio, plaintext and PDFs. Recent attachments have been included above under the " ++ dq ++
  "Attachments" ++ dq ++
  " section.

{{messageDirections}}

{{recentMessages}}

{{actions}}

# Context
You are currently an embodied avatar in someones Hyperfy virtual world.
This is the context for the environment and a list of recent events:
{{hyperfy}}

# Task: Decide if you would like to respond to the context above which describes the world and recent events. If you choose to respond, only say short messages, eg less than 100 characters. If it doesn't seem like anyone is talking to you, stay quiet. NEVER RESPOND IF ONLY AGENTS HAVE SPOKEN THE LAST FEW MESSAGES.

Response format should be formatted in a JSON block like this:
```json
{ " ++ dq ++
  "look" ++ dq ++
  ": " ++ dq ++
  "string" ++ dq ++
  " player id or null, " ++ dq ++
  "emote" ++ dq ++
  ": " ++ dq ++
  "{{emotes}}" ++ dq ++
  " or null, " ++ dq ++
  "say" ++ dq ++
  ": " ++ dq ++
  "string" ++ dq ++
  " or null, " ++ dq ++
  "trigger" ++ dq ++
  ": " ++ dq ++
  "{{triggers}}" ++ dq ++
  " or null }
```
".

(** What [res] sends: [res.status(n).send(text)] or [res.json(v)]. *)
Inductive payload : Type :=
| Text (s : string)
| Json (v : value).

(** What ends a promise chain that nothing catches: a [TypeError] thrown by
    the handler, or the rejection of a collaborator's promise. *)
Inductive exn : Type :=
| TypeError (message : string)
| rejection (callee : string).

(** What a turn does outside the handler, one event for each: the calls of
    the collaborators and of [res]; [createMemory_done m], the moment the
    promise of [createMemory m] resolves, from which the record exists in
    the store; and [uncaught e], a throw or a rejection that nothing
    catches and that ends the promise chain it occurs in. *)
Inductive event : Type :=
| composeState_call (m : Message)
| generateObject_call (agent : UUID) (context : string) (schema : Zod.ZodType)
| createMemory_call (m : Message)
| createMemory_done (m : Message)
| evaluate_call (mem : Memory) (state : State)
| processActions_call (mem : Memory) (responses : list Message) (state : State)
| respond (status : nat) (p : payload)
| uncaught (e : exn).

(** The registry [this.agents]: a [Map] from agent identifier to runtime,
    in insertion order. *)
Definition registry : Type := list (string * IAgentRuntime).

Fixpoint Map_get (agents : registry) (k : string) : option IAgentRuntime :=
  match agents with
  | [] => None
  | (k', r) :: rest => if String.eqb k' k then Some r else Map_get rest k
  end.

Fixpoint Map_set (agents : registry) (k : string) (r : IAgentRuntime) : registry :=
  match agents with
  | [] => [(k, r)]
  | (k', r') :: rest =>
      if String.eqb k' k then (k, r) :: rest else (k', r') :: Map_set rest k r
  end.

Definition Map_delete (agents : registry) (k : string) : registry :=
  filter (fun e => negb (String.eqb (fst e) k)) agents.

Definition Map_values (agents : registry) : list IAgentRuntime :=
  map snd agents.

Definition registerAgent (agents : registry) (runtime : IAgentRuntime) : registry :=
  Map_set agents (agentId runtime) runtime.

Definition unregisterAgent (agents : registry) (runtime : IAgentRuntime) : registry :=
  Map_delete agents (agentId runtime).

(** The text and the action tag of the reply (lines 224-244). *)
Definition contentObj_of (hfOut : Decision) : Content :=
  let text0 := say hfOut in
  let text1 :=
    match lookAt hfOut, emote hfOut with
    | None, None => text0
    | _, _ =>
        let t := append_to text0 ". Then I " in
        let t :=
          match lookAt hfOut with
          | Some l =>
              let t := append_to t ("looked at " ++ l) in
              match emote hfOut with
              | Some _ => append_to t " and "
              | None => t
              end
          | None => t
          end in
        match emote hfOut with
        | Some e => Some ("emoted " ++ e)
        | None => t
        end
    end in
  {| text := text1;
     action :=
       match actions hfOut with
       | Some l => nth_error l 0
       | None => None
       end;
     source := None;
     attachments := None |}.

Section Turn.

Context {host : Host}.

(** The runtime of a request (lines 80-90): the one registered under the
    identifier, else the first whose character name is the identifier up
    to case. *)
Definition resolve (agents : registry) (agentId : string) : option IAgentRuntime :=
  match Map_get agents agentId with
  | Some runtime => Some runtime
  | None =>
      find (fun a => String.eqb (toLowerCase (character_name a)) (toLowerCase agentId))
           (Map_values agents)
  end.

(** The stimulus as handed to the evaluators and the action handlers
    (lines 256-266). *)
Definition stimulus (runtime : IAgentRuntime) (userId roomId : UUID)
    (content : Content) : Memory :=
  let messageId := stringToUuid (Number_toString (Date_now 0)) in
  {| id := messageId;
     mem_agentId := agentId runtime;
     mem_userId := userId;
     mem_roomId := roomId;
     mem_content := content;
     createdAt := Date_now 1 |}.

(** What follows once [createMemory] has settled (lines 253-288): nothing
    when it rejected; else the evaluators and, once they resolved, the
    action handlers if the reply carries a truthy action tag. *)
Definition settled (runtime : IAgentRuntime) (responseMessage : Message)
    (userId roomId : UUID) (content : Content) (state : State) : list event :=
  match createMemory runtime responseMessage with
  | Rejected => [uncaught (rejection "createMemory")]
  | Resolved _ =>
      let memory := stimulus runtime userId roomId content in
      createMemory_done responseMessage ::
      evaluate_call memory state ::
      match evaluate runtime memory state with
      | Rejected => [uncaught (rejection "evaluate")]
      | Resolved _ =>
          if truthy (action (msg_content responseMessage))
          then [processActions_call memory [responseMessage] state]
          else []
      end
  end.

(** The reply stored for a decision (lines 247-251): [userMessage] with the
    agent as sender and the composed content. *)
Definition responseMessage_of (runtime : IAgentRuntime) (userMessage : Message)
    (hfOut : Decision) : Message :=
  {| msg_content := contentObj_of hfOut;
     msg_userId := agentId runtime;
     msg_roomId := msg_roomId userMessage;
     msg_agentId := msg_agentId userMessage |}.

(** The background promise (lines 223-289) and the response (line 290): the
    executor runs at once and calls [createMemory]; the response is sent;
    the callbacks run when the promises settle. *)
Definition background (runtime : IAgentRuntime) (userMessage : Message)
    (state : State) (hfOut : value) : list event :=
  let responseMessage := responseMessage_of runtime userMessage (decision_of_value hfOut) in
  createMemory_call responseMessage ::
  respond 200 (Json hfOut) ::
  settled runtime responseMessage (msg_userId userMessage) (msg_roomId userMessage)
          (msg_content userMessage) state.

(** The backend call and the validation of its answer (lines 192-220). *)
Definition decide (runtime : IAgentRuntime) (userMessage : Message)
    (state : State) (context : string) (body : Body) : list event :=
  let hyperfyOutSchema := createHyperfyOutSchema body in
  generateObject_call (agentId runtime) context hyperfyOutSchema ::
  match generateObject runtime context hyperfyOutSchema with
  | Rejected => [uncaught (rejection "generateObject")]
  | Resolved None => [respond 500 (Text "No response from generateMessageResponse")]
  | Resolved (Some object) =>
      match Zod.parse hyperfyOutSchema object with
      | None => [respond 500 (Text "Error in LLM response, try again")]
      | Some hfOut => background runtime userMessage state hfOut
      end
  end.

Definition join_of_undefined : exn :=
  TypeError "Cannot read properties of undefined (reading 'join')".

(** The handler of [POST /agents/:agentIdOrName/hyperfy] (lines 78-291). *)
Definition handler (agents : registry) (req : Request) : list event :=
  match resolve agents (agentIdOrName req) with
  | None => [respond 404 (Text "Agent not found")]
  | Some runtime =>
      let roomId := stringToUuid (nullish_or (roomId (body req)) "hyperfy") in
      let body := body req in
      let content :=
        {| text := Some (JSON_stringify body);
           action := None;
           source := Some "hyperfy";
           attachments := Some [] |} in
      let userId := stringToUuid "hyperfy" in
      let userMessage :=
        {| msg_content := content;
           msg_userId := userId;
           msg_roomId := roomId;
           msg_agentId := agentId runtime |} in
      composeState_call userMessage ::
      match composeState runtime userMessage with
      | Rejected => [uncaught (rejection "composeState")]
      | Resolved state =>
          let template :=
            replace hyperfyHandlerTemplate "{{hyperfy}}" (JSON_stringify_indent body) in
          match emotes body with
          | None => [uncaught join_of_undefined]
          | Some emotes =>
              let template := replace template "{{emotes}}" (join emotes "|") in
              match triggers body with
              | None => [uncaught join_of_undefined]
              | Some triggers =>
                  let template := replace template "{{triggers}}" (join triggers "|") in
                  let context := composeContext state template in
                  decide runtime userMessage state context body
              end
          end
      end
  end.

End Turn.

(** ** What a trace shows *)

(** The records passed to [createMemory], in order. *)
Fixpoint created (tr : list event) : list Message :=
  match tr with
  | [] => []
  | createMemory_call m :: rest => m :: created rest
  | _ :: rest => created rest
  end.

(** The records whose [createMemory] resolved. *)
Fixpoint stored (tr : list event) : list Message :=
  match tr with
  | [] => []
  | createMemory_done m :: rest => m :: stored rest
  | _ :: rest => stored rest
  end.

(** The stimuli handed to the evaluators. *)
Fixpoint evaluated (tr : list event) : list Memory :=
  match tr with
  | [] => []
  | evaluate_call mem _ :: rest => mem :: evaluated rest
  | _ :: rest => evaluated rest
  end.

(** The calls of [processActions]: the stimulus and the replies. *)
Fixpoint dispatched (tr : list event) : list (Memory * list Message) :=
  match tr with
  | [] => []
  | processActions_call mem responses _ :: rest => (mem, responses) :: dispatched rest
  | _ :: rest => dispatched rest
  end.

(** The number of calls of the generative backend. *)
Fixpoint backend_calls (tr : list event) : nat :=
  match tr with
  | [] => 0
  | generateObject_call _ _ _ :: rest => S (backend_calls rest)
  | _ :: rest => backend_calls rest
  end.

(** What was sent to the caller. *)
Fixpoint responses (tr : list event) : list (nat * payload) :=
  match tr with
  | [] => []
  | respond status p :: rest => (status, p) :: responses rest
  | _ :: rest => responses rest
  end.

(** A decision with nothing in it. *)
Definition all_null (d : Decision) : Prop :=
  lookAt d = None /\ emote d = None /\ say d = None /\ actions d = None.

(** The user message of a turn (lines 105-119). *)
Definition userMessage_of {host : Host} (runtime : IAgentRuntime) (body : Body) : Message :=
  {| msg_content :=
       {| text := Some (JSON_stringify body);
          action := None;
          source := Some "hyperfy";
          attachments := Some [] |};
     msg_userId := stringToUuid "hyperfy";
     msg_roomId := stringToUuid (nullish_or (roomId body) "hyperfy");
     msg_agentId := agentId runtime |}.

(** The prompt of a turn (lines 125-143). *)
Definition context_of {host : Host} (state : State) (body : Body)
    (emotes triggers : list string) : string :=
  let template :=
    replace hyperfyHandlerTemplate "{{hyperfy}}" (JSON_stringify_indent body) in
  let template := replace template "{{emotes}}" (join emotes "|") in
  let template := replace template "{{triggers}}" (join triggers "|") in
  composeContext state template.

(** A decision with another [actions] field. *)
Definition with_actions (d : Decision) (a : option (list string)) : Decision :=
  {| lookAt := lookAt d; emote := emote d; say := say d; actions := a |}.

(** Every call of [processActions] in [tr] carries exactly one reply, and
    the [createMemory] of that reply has resolved earlier in [tr] or is
    among [seen]. *)
Fixpoint guarded (seen : list Message) (tr : list event) : Prop :=
  match tr with
  | [] => True
  | createMemory_done m :: rest => guarded (m :: seen) rest
  | processActions_call _ rs _ :: rest =>
      (exists m, rs = [m] /\ In m seen) /\ guarded seen rest
  | _ :: rest => guarded seen rest
  end.

(** ** A concrete host, for examples *)

Module Sample.

Definition lower_ascii (c : ascii) : ascii :=
  let n := nat_of_ascii c in
  if (65 <=? n)%nat && (n <=? 90)%nat then ascii_of_nat (n + 32) else c.

Fixpoint lower (s : string) : string :=
  match s with
  | EmptyString => EmptyString
  | String c s' => String (lower_ascii c) (lower s')
  end.

(** A host whose backend always settles to [answer]. *)
Definition host (answer : awaited (option value)) : Host :=
  {| stringToUuid := fun s => "uuid:" ++ s;
     composeContext := fun _ template => template;
     generateObject := fun _ _ _ => answer;
     JSON_stringify := fun _ => "{}";
     JSON_stringify_indent := fun _ => "{}";
     toLowerCase := lower;
     Date_now := fun n => (1700000000000 + Z.of_nat n)%Z;
     Number_toString := fun z => NilZero.string_of_int (Z.to_int z) |}.

(** An agent whose store accepts or refuses every record. *)
Definition agent (storeWorks : bool) : IAgentRuntime :=
  {| agentId := "agent-1";
     character_name := "Eliza";
     composeState := fun _ => Resolved [("agentName", "Eliza")];
     createMemory := fun _ => if storeWorks then Resolved tt else Rejected;
     evaluate := fun _ _ => Resolved tt |}.

Definition agents (storeWorks : bool) : registry :=
  registerAgent [] (agent storeWorks).

Definition request (to : string) (b : Body) : Request :=
  {| agentIdOrName := to; body := b |}.

(** The request and the backend answer of scenario A. *)
Definition bodyA : Body :=
  {| roomId := Some "hyperfy";
     emotes := Some ["wave"; "laugh"];
     triggers := Some ["player1"];
     extra := [] |}.

Definition decisionA : Decision :=
  {| lookAt := Some "player1"; emote := Some "wave"; say := Some "hi"; actions := None |}.

Definition silence : Decision :=
  {| lookAt := None; emote := None; say := None; actions := None |}.

Definition answering (d : Decision) : Host :=
  host (Resolved (Some (value_of_decision d))).

(** A reply that names an action. *)
Definition waving : Decision :=
  {| lookAt := None; emote := None; say := Some "hi"; actions := Some ["WAVE"; "DANCE"] |}.

Definition bodyNoEmotes : Body :=
  {| roomId := None; emotes := None; triggers := Some ["player1"]; extra := [] |}.


(** The records created by a turn of the sample agent whose backend
    answers [d]. *)
Definition recorded (d : Decision) : list Message :=
  created (@handler (answering d) (agents true) (request "agent-1" bodyA)).

End Sample.

(** ** The registry and the prompt seen from outside *)

(** [Array.from(this.agents.keys())]. *)
Definition Map_keys (agents : registry) : list string :=
  map fst agents.


(** What [registerAgent] and [unregisterAgent] keep of a registry: no
    identifier is there twice, and every runtime is filed under its own
    [agentId]. *)
Definition well_keyed (agents : registry) : Prop :=
  NoDup (Map_keys agents) /\ forall k r, In (k, r) agents -> k = agentId r.

(** Whether [pattern] occurs in [s]. *)
Definition occurs (pattern s : string) : bool :=
  match split_at pattern s with
  | Some _ => true
  | None => false
  end.

(** Whether the character [c] occurs in [s]. *)
Fixpoint has_char (c : ascii) (s : string) : bool :=
  match s with
  | EmptyString => false
  | String x s' => Ascii.eqb x c || has_char c s'
  end.

(** A replacement string without a dollar: [replace] inserts it as it is. *)
Definition dollar_free (s : string) : bool :=
  negb (has_char "$" s).

(** The four stretches of the template around its three placeholders
    [{{hyperfy}}], [{{emotes}}] and [{{triggers}}]. *)
Definition template_parts : string * string * string * string :=
  Eval vm_compute in
    match split_at "{{hyperfy}}" hyperfyHandlerTemplate with
    | Some (p1, r1) =>
        match split_at "{{emotes}}" r1 with
        | Some (p2, r2) =>
            match split_at "{{triggers}}" r2 with
            | Some (p3, p4) => (p1, p2, p3, p4)
            | None => (p1, p2, r2, EmptyString)
            end
        | None => (p1, r1, EmptyString, EmptyString)
        end
    | None => (hyperfyHandlerTemplate, EmptyString, EmptyString, EmptyString)
    end.

Definition before_hyperfy : string := fst (fst (fst template_parts)).
Definition before_emotes : string := snd (fst (fst template_parts)).
Definition before_triggers : string := snd (fst template_parts).
Definition after_triggers : string := snd template_parts.

(** More agents and answers, for examples. *)
Module Demo.

(** A second agent with the character name of the first. *)
Definition twin : IAgentRuntime :=
  {| agentId := "agent-2";
     character_name := "ELIZA";
     composeState := fun _ => Resolved [];
     createMemory := fun _ => Resolved tt;
     evaluate := fun _ _ => Rejected |}.

(** An answer of the backend without the key [actions]. *)
Definition noActions : value :=
  VObj [("lookAt", VNull); ("emote", VNull); ("say", VStr "hi")].

(** A reply that looks at a player and says nothing. *)
Definition glance : Decision :=
  {| lookAt := Some "player1"; emote := None; say := None; actions := None |}.

(** A host whose serialised body holds the placeholder of the emotes. *)
Definition echoing : Host :=
  {| stringToUuid := fun s => "uuid:" ++ s;
     composeContext := fun _ template => template;
     generateObject := fun _ _ _ => Rejected;
     JSON_stringify := fun _ => "{}";
     JSON_stringify_indent := fun _ => "say {{emotes}} now";
     toLowerCase := Sample.lower;
     Date_now := fun n => Z.of_nat n;
     Number_toString := fun z => NilZero.string_of_int (Z.to_int z) |}.

(** An agent whose state cannot be composed. *)
Definition stateless : IAgentRuntime :=
  {| agentId := "agent-3";
     character_name := "Nova";
     composeState := fun _ => Rejected;
     createMemory := fun _ => Resolved tt;
     evaluate := fun _ _ => Resolved tt |}.

End Demo.

(** * Properties *)

(** ** Validation *)

Lemma get_same (k : string) (v : value) (rest : list (string * value)) :
  get ((k, v) :: rest) k = v.
Proof. simpl. now rewrite String.eqb_refl. Qed.

(** A union of literals, given a string, answers that string or refuses. *)
Lemma parse_literals (vocabulary : list string) (s : string) :
  Zod.parse (Zod.union (map Zod.literal vocabulary)) (VStr s) = Some (VStr s) \/
  Zod.parse (Zod.union (map Zod.literal vocabulary)) (VStr s) = None.
Proof.
  induction vocabulary as [|w rest IH]; simpl.
  - now right.
  - destruct (String.eqb s w); [now left | exact IH].
Qed.

(** It accepts exactly the entries of the vocabulary. *)
Lemma parse_literals_In (vocabulary : list string) (s : string) :
  Zod.parse (Zod.union (map Zod.literal vocabulary)) (VStr s) = Some (VStr s) <->
  In s vocabulary.
Proof.
  induction vocabulary as [|w rest IH]; simpl.
  - split; [discriminate | contradiction].
  - destruct (String.eqb_spec s w) as [->|ne].
    + split; auto.
    + rewrite IH. split; [auto | intros [e|i]; [congruence | exact i]].
Qed.

Lemma parse_literals_null (vocabulary : list string) :
  Zod.parse (Zod.union (map Zod.literal vocabulary)) VNull = None.
Proof. induction vocabulary as [|w rest IH]; simpl; [reflexivity | exact IH]. Qed.

(** Whatever the vocabulary, its schema accepts every string and null. *)
Lemma parse_vocabulary (vocabulary : list string) (o : option string) :
  Zod.parse (vocabularySchema vocabulary) (of_nullable_string o)
  = Some (of_nullable_string o).
Proof.
  destruct vocabulary as [|w rest]; destruct o as [s|]; try reflexivity.
  - unfold vocabularySchema.
    destruct (parse_literals (w :: rest) s) as [E|E];
      cbn [Zod.parse of_nullable_string]; cbn [Zod.parse] in E; now rewrite E.
  - unfold vocabularySchema.
    pose proof (parse_literals_null (w :: rest)) as E.
    cbn [Zod.parse of_nullable_string]; cbn [Zod.parse] in E; now rewrite E.
Qed.

Lemma parse_strings (l : list string) :
  Zod.parse (Zod.array Zod.string_) (VArr (map VStr l)) = Some (VArr (map VStr l)).
Proof.
  simpl. induction l as [|s l IH]; simpl; [reflexivity|].
  destruct ((fix each (l0 : list value) : option (list value) := _) (map VStr l)) as [ys|];
    simpl in IH; [|discriminate].
  injection IH as ->. reflexivity.
Qed.

(** The schema of a turn accepts the object of every decision and returns
    it unchanged. *)
Lemma parse_decision (b : Body) (d : Decision) :
  Zod.parse (createHyperfyOutSchema b) (value_of_decision d)
  = Some (value_of_decision d).
Proof.
  unfold createHyperfyOutSchema, value_of_decision.
  cbn [Zod.parse option_map].
  cbn [get String.eqb Ascii.eqb Bool.eqb].
  rewrite !parse_vocabulary.
  destruct (say d) as [s|]; destruct (actions d) as [l|];
    cbn [of_nullable_string of_nullable_strings Zod.parse];
    try reflexivity.
  - pose proof (parse_strings l) as E. cbn [Zod.parse] in E. now rewrite E.
  - pose proof (parse_strings l) as E. cbn [Zod.parse] in E. now rewrite E.
Qed.

Lemma as_strings_map (l : list string) : as_strings (map VStr l) = l.
Proof. induction l as [|s l IH]; simpl; [reflexivity | now rewrite IH]. Qed.

Lemma decision_of_value_of_decision (d : Decision) :
  decision_of_value (value_of_decision d) = d.
Proof.
  destruct d as [l e s a]. unfold decision_of_value, value_of_decision; simpl.
  destruct l, e, s, a; simpl; rewrite ?as_strings_map; reflexivity.
Qed.

Lemma parse_literals_inv (vocabulary : list string) (v o : value) :
  Zod.parse (Zod.union (map Zod.literal vocabulary)) v = Some o ->
  exists s, o = VStr s.
Proof.
  induction vocabulary as [|w rest IH]; simpl; [discriminate|].
  destruct v as [| | | |x| |]; try exact IH.
  destruct (String.eqb x w); [|exact IH].
  intros [= <-]. now exists x.
Qed.

Lemma parse_vocabulary_inv (vocabulary : list string) (v o : value) :
  Zod.parse (vocabularySchema vocabulary) v = Some o ->
  exists x, o = of_nullable_string x.
Proof.
  destruct vocabulary as [|w rest]; unfold vocabularySchema.
  - cbn [Zod.parse]. destruct v; try discriminate; intros [= <-];
      [now exists None | now exists (Some s)].
  - intros E. cbn [Zod.parse] in E.
    pose proof (parse_literals_inv (w :: rest) v) as L. cbn [Zod.parse] in L.
    destruct ((fix first (os : list Zod.ZodType) : option value := _)
                (map Zod.literal (w :: rest))) as [r|].
    + injection E as <-. destruct (L r eq_refl) as [s ->]. now exists (Some s).
    + destruct v; try discriminate; injection E as <-;
        [now exists None | now exists (Some s)].
Qed.

Lemma parse_strings_inv (items : list value) (o : value) :
  Zod.parse (Zod.array Zod.string_) (VArr items) = Some o ->
  exists l, o = VArr (map VStr l).
Proof.
  simpl. revert o. induction items as [|x items IH]; simpl; intros o E.
  - injection E as <-. now exists [].
  - destruct x as [| | | |s| |]; try discriminate.
    destruct ((fix each (l0 : list value) : option (list value) := _) items) as [ys|];
      [|discriminate].
    destruct (IH (VArr ys) eq_refl) as [l [= ->]].
    injection E as <-. now exists (s :: l).
Qed.

(** Validation by an object schema of four keys, field by field. *)
Lemma parse_object4 (k1 k2 k3 k4 : string) (t1 t2 t3 t4 : Zod.ZodType)
    (props : list (string * value)) :
  Zod.parse (Zod.object [(k1, t1); (k2, t2); (k3, t3); (k4, t4)]) (VObj props) =
  match Zod.parse t1 (get props k1), Zod.parse t2 (get props k2),
        Zod.parse t3 (get props k3), Zod.parse t4 (get props k4) with
  | Some a, Some b, Some c, Some d => Some (VObj [(k1, a); (k2, b); (k3, c); (k4, d)])
  | _, _, _, _ => None
  end.
Proof.
  cbn [Zod.parse].
  destruct (Zod.parse t1 (get props k1)), (Zod.parse t2 (get props k2)),
    (Zod.parse t3 (get props k3)), (Zod.parse t4 (get props k4)); reflexivity.
Qed.

(** What the schema of a turn returns is the object of a decision. *)
Lemma parse_inv (b : Body) (v hfOut : value) :
  Zod.parse (createHyperfyOutSchema b) v = Some hfOut ->
  exists d, hfOut = value_of_decision d.
Proof.
  unfold createHyperfyOutSchema.
  destruct v as [| | | | | |props]; try (cbn [Zod.parse]; discriminate).
  rewrite parse_object4.
  destruct (Zod.parse (vocabularySchema (or_empty (triggers b))) (get props "lookAt"))
    as [l|] eqn:El; [|discriminate].
  destruct (Zod.parse (vocabularySchema (or_empty (emotes b))) (get props "emote"))
    as [e|] eqn:Ee; [|discriminate].
  destruct (Zod.parse (Zod.nullable Zod.string_) (get props "say")) as [s|] eqn:Es;
    [|discriminate].
  destruct (Zod.parse (Zod.nullable (Zod.array Zod.string_)) (get props "actions"))
    as [a|] eqn:Ea; [|discriminate].
  apply parse_vocabulary_inv in El as [l' ->].
  apply parse_vocabulary_inv in Ee as [e' ->].
  assert (exists s', s = of_nullable_string s') as [s' ->].
  { cbn [Zod.parse] in Es. destruct (get props "say"); try discriminate;
      injection Es as <-; [now exists None | now exists (Some s0)]. }
  assert (exists a', a = of_nullable_strings a') as [a' ->].
  { destruct (get props "actions") as [| | | | |items|] eqn:G;
      try (cbn [Zod.parse] in Ea; discriminate).
    - cbn [Zod.parse] in Ea. injection Ea as <-. now exists None.
    - change (Zod.parse (Zod.array Zod.string_) (VArr items) = Some a) in Ea.
      apply parse_strings_inv in Ea as [l0 ->]. now exists (Some l0). }
  intros [= <-].
  now exists {| lookAt := l'; emote := e'; say := s'; actions := a' |}.
Qed.

(** ** The shape of a turn *)

Section TurnFacts.

Context {host : Host}.

Lemma handler_not_found (agents : registry) (req : Request) :
  resolve agents (agentIdOrName req) = None ->
  handler agents req = [respond 404 (Text "Agent not found")].
Proof. intros E. unfold handler. now rewrite E. Qed.

(** A turn up to the backend call. *)
Lemma handler_decide (agents : registry) (req : Request) (rt : IAgentRuntime)
    (st : State) (es ts : list string) :
  resolve agents (agentIdOrName req) = Some rt ->
  composeState rt (userMessage_of rt (body req)) = Resolved st ->
  emotes (body req) = Some es ->
  triggers (body req) = Some ts ->
  handler agents req =
  composeState_call (userMessage_of rt (body req)) ::
  decide rt (userMessage_of rt (body req)) st (context_of st (body req) es ts) (body req).
Proof.
  intros Er Ec Ee Et. unfold handler. rewrite Er.
  fold (userMessage_of rt (body req)). rewrite Ec, Ee, Et. reflexivity.
Qed.

(** A turn whose backend answer passes validation. *)
Lemma handler_background (agents : registry) (req : Request) (rt : IAgentRuntime)
    (st : State) (es ts : list string) (object hfOut : value) :
  resolve agents (agentIdOrName req) = Some rt ->
  composeState rt (userMessage_of rt (body req)) = Resolved st ->
  emotes (body req) = Some es ->
  triggers (body req) = Some ts ->
  generateObject rt (context_of st (body req) es ts) (createHyperfyOutSchema (body req))
  = Resolved (Some object) ->
  Zod.parse (createHyperfyOutSchema (body req)) object = Some hfOut ->
  handler agents req =
  composeState_call (userMessage_of rt (body req)) ::
  generateObject_call (agentId rt) (context_of st (body req) es ts)
                      (createHyperfyOutSchema (body req)) ::
  background rt (userMessage_of rt (body req)) st hfOut.
Proof.
  intros Er Ec Ee Et Eg Ep.
  rewrite (handler_decide _ _ _ _ _ _ Er Ec Ee Et).
  unfold decide. now rewrite Eg, Ep.
Qed.

Lemma created_settled (rt : IAgentRuntime) (rm : Message) (u r : UUID)
    (c : Content) (st : State) :
  created (settled rt rm u r c st) = [].
Proof.
  unfold settled. destruct (createMemory rt rm); [|reflexivity]. simpl.
  destruct (evaluate rt _ st); [|reflexivity].
  destruct (truthy _); reflexivity.
Qed.

Lemma created_background (rt : IAgentRuntime) (um : Message) (st : State)
    (hfOut : value) :
  created (background rt um st hfOut)
  = [responseMessage_of rt um (decision_of_value hfOut)].
Proof. unfold background. simpl. now rewrite created_settled. Qed.

Lemma dispatched_settled (rt : IAgentRuntime) (rm : Message) (u r : UUID)
    (c : Content) (st : State) :
  dispatched (settled rt rm u r c st) = [] \/
  dispatched (settled rt rm u r c st) = [(stimulus rt u r c, [rm])].
Proof.
  unfold settled. destruct (createMemory rt rm); [|now left]. simpl.
  destruct (evaluate rt _ st); [|now left].
  destruct (truthy _); [now right | now left].
Qed.

Lemma dispatched_settled_falsy (rt : IAgentRuntime) (rm : Message) (u r : UUID)
    (c : Content) (st : State) :
  truthy (action (msg_content rm)) = false ->
  dispatched (settled rt rm u r c st) = [].
Proof.
  intros F. unfold settled. destruct (createMemory rt rm); [|reflexivity]. simpl.
  destruct (evaluate rt _ st); [|reflexivity]. now rewrite F.
Qed.

Lemma guarded_settled (rt : IAgentRuntime) (rm : Message) (u r : UUID)
    (c : Content) (st : State) (seen : list Message) :
  guarded seen (settled rt rm u r c st).
Proof.
  unfold settled. destruct (createMemory rt rm); [|exact I]. simpl.
  destruct (evaluate rt _ st); [|exact I].
  destruct (truthy _); simpl; [|exact I].
  split; [|exact I]. exists rm. split; [reflexivity | now left].
Qed.

Lemma guarded_handler (agents : registry) (req : Request) :
  guarded [] (handler agents req).
Proof.
  unfold handler.
  destruct (resolve agents (agentIdOrName req)) as [rt|]; [|exact I].
  cbn [guarded]. destruct (composeState rt _) as [st|]; [|exact I].
  destruct (emotes (body req)); [|exact I].
  destruct (triggers (body req)); [|exact I].
  unfold decide. cbn [guarded].
  destruct (generateObject rt _ _) as [[object|]|]; try exact I.
  destruct (Zod.parse _ object) as [hfOut|]; [|exact I].
  unfold background. cbn [guarded]. apply guarded_settled.
Qed.

End TurnFacts.

(** Where a guarded trace calls [processActions], the reply it passes was
    stored before. *)
Lemma guarded_split (tr pre post : list event) (seen : list Message)
    (mem : Memory) (rs : list Message) (st : State) :
  guarded seen tr ->
  tr = (pre ++ processActions_call mem rs st :: post)%list ->
  exists m, rs = [m] /\ (In m seen \/ In (createMemory_done m) pre).
Proof.
  revert tr seen. induction pre as [|e pre IH]; intros tr seen G ->; simpl in G.
  - destruct G as [[m [-> i]] _]. exists m. auto.
  - destruct e; simpl in G;
      try solve [destruct (IH _ _ G eq_refl) as [m0 [E [i|i]]]; exists m0;
                 (split; [exact E | simpl; auto])].
    + destruct (IH _ _ G eq_refl) as [m0 [E [i|i]]]; exists m0;
        (split; [exact E|]).
      * simpl in i. destruct i as [<-|i]; simpl; auto.
      * simpl; auto.
    + destruct G as [_ G].
      destruct (IH _ _ G eq_refl) as [m0 [E [i|i]]]; exists m0;
        (split; [exact E|]); simpl; auto.
Qed.

(** ** The schema of a turn *)

(** C6.  For every pair of vocabularies, the empty ones included,
    [createHyperfyOutSchema] yields an object schema (the builder is a total
    function: nothing in it can throw) whose validator accepts the object
    with all four fields null; and for every non-empty trigger vocabulary
    [V] the validator accepts a decision whose [lookAt] is an entry of [V]
    as well as one whose [lookAt] is a string outside [V]. *)
Theorem schema_tolerates_novelty (E T : option (list string)) (room : option string)
    (more : list (string * value)) :
  let b := {| roomId := room; emotes := E; triggers := T; extra := more |} in
  (exists lookAtSchema emoteSchema,
      createHyperfyOutSchema b =
      Zod.object [("lookAt", lookAtSchema); ("emote", emoteSchema);
                  ("say", Zod.nullable Zod.string_);
                  ("actions", Zod.nullable (Zod.array Zod.string_))]) /\
  Zod.parse (createHyperfyOutSchema b)
            (VObj [("lookAt", VNull); ("emote", VNull); ("say", VNull); ("actions", VNull)])
  = Some (VObj [("lookAt", VNull); ("emote", VNull); ("say", VNull); ("actions", VNull)]) /\
  (forall (V : list string) (v : string) (d : Decision),
      T = Some V -> V <> [] -> In v V -> lookAt d = Some v ->
      Zod.parse (createHyperfyOutSchema b) (value_of_decision d)
      = Some (value_of_decision d)) /\
  (forall (V : list string) (s : string) (d : Decision),
      T = Some V -> V <> [] -> ~ In s V -> lookAt d = Some s ->
      Zod.parse (createHyperfyOutSchema b) (value_of_decision d)
      = Some (value_of_decision d)).
Proof.
  intros b. repeat split.
  - eexists. eexists. reflexivity.
  - exact (parse_decision b {| lookAt := None; emote := None; say := None; actions := None |}).
  - intros. apply parse_decision.
  - intros. apply parse_decision.
Qed.

Lemma schema_tolerates_novelty_witness :
  Zod.parse (createHyperfyOutSchema Sample.bodyA) (value_of_decision Sample.decisionA)
  = Some (value_of_decision Sample.decisionA) /\
  Zod.parse (createHyperfyOutSchema Sample.bodyA)
            (value_of_decision (Build_Decision (Some "stranger") None None None))
  = Some (value_of_decision (Build_Decision (Some "stranger") None None None)).
Proof.
  destruct (schema_tolerates_novelty (Some ["wave"; "laugh"]) (Some ["player1"])
                                     (Some "hyperfy") [])
    as [_ [_ [known novel]]].
  split.
  - apply (known ["player1"] "player1"); [reflexivity | discriminate | | reflexivity].
    simpl. left. reflexivity.
  - apply (novel ["player1"] "stranger"); [reflexivity | discriminate | | reflexivity].
    simpl. intros [e|f]; [discriminate e | exact f].
Defined.

(** ** The reply *)

Section Reply.

Context {host : Host}.

(** C9.  For every validated decision with a non-null emote, the text of
    the one record passed to [createMemory] is ["emoted "] followed by the
    emote, whatever [say] and [lookAt] are: the emote branch assigns the
    text, it does not append to it. *)
Theorem emote_overwrites_text (rt : IAgentRuntime) (um : Message) (st : State)
    (d : Decision) (e : string) :
  emote d = Some e ->
  text (contentObj_of d) = Some ("emoted " ++ e) /\
  exists rm,
    created (background rt um st (value_of_decision d)) = [rm] /\
    text (msg_content rm) = Some ("emoted " ++ e).
Proof.
  intros E.
  assert (T : text (contentObj_of d) = Some ("emoted " ++ e)).
  { unfold contentObj_of. cbn [text]. rewrite E. destruct (lookAt d); reflexivity. }
  split; [exact T|].
  exists (responseMessage_of rt um d). split.
  - now rewrite created_background, decision_of_value_of_decision.
  - exact T.
Qed.

(** C10.  For every validated decision whose [actions] is the empty
    array, the reply has no action tag and [processActions] is not called;
    the stored reply and what follows its storage are those of the same
    decision with [actions] null. *)
Theorem empty_actions_as_null (rt : IAgentRuntime) (um : Message) (st : State)
    (d : Decision) :
  actions d = Some [] ->
  let tr := background rt um st (value_of_decision d) in
  let tr0 := background rt um st (value_of_decision (with_actions d None)) in
  action (contentObj_of d) = None /\
  dispatched tr = [] /\
  responseMessage_of rt um d = responseMessage_of rt um (with_actions d None) /\
  created tr = created tr0 /\
  stored tr = stored tr0 /\
  evaluated tr = evaluated tr0 /\
  dispatched tr = dispatched tr0.
Proof.
  intros A tr tr0.
  assert (C : contentObj_of d = contentObj_of (with_actions d None)).
  { unfold contentObj_of, with_actions. cbn [lookAt emote say actions]. now rewrite A. }
  assert (R : responseMessage_of rt um d = responseMessage_of rt um (with_actions d None)).
  { unfold responseMessage_of. now rewrite C. }
  assert (N : action (contentObj_of d) = None).
  { unfold contentObj_of. cbn [action]. now rewrite A. }
  assert (D : dispatched tr = []).
  { unfold tr, background. cbn [dispatched]. rewrite decision_of_value_of_decision.
    apply dispatched_settled_falsy. cbn [msg_content responseMessage_of]. now rewrite N. }
  assert (S : tr0 = createMemory_call (responseMessage_of rt um d) ::
                    respond 200 (Json (value_of_decision (with_actions d None))) ::
                    settled rt (responseMessage_of rt um d) (msg_userId um)
                            (msg_roomId um) (msg_content um) st).
  { unfold tr0, background. rewrite decision_of_value_of_decision. now rewrite <- R. }
  assert (S' : tr = createMemory_call (responseMessage_of rt um d) ::
                    respond 200 (Json (value_of_decision d)) ::
                    settled rt (responseMessage_of rt um d) (msg_userId um)
                            (msg_roomId um) (msg_content um) st).
  { unfold tr, background. now rewrite decision_of_value_of_decision. }
  repeat split; try assumption; rewrite ?S, ?S'; reflexivity.
Qed.

End Reply.

Lemma emote_overwrites_text_witness :
  text (contentObj_of Sample.decisionA) = Some "emoted wave".
Proof.
  apply (@emote_overwrites_text (Sample.answering Sample.decisionA) (Sample.agent true)
           (@userMessage_of (Sample.answering Sample.decisionA) (Sample.agent true)
                            Sample.bodyA)
           [] Sample.decisionA "wave").
  reflexivity.
Defined.

Lemma empty_actions_as_null_witness :
  dispatched (@background (Sample.answering Sample.silence) (Sample.agent true)
                (@userMessage_of (Sample.answering Sample.silence) (Sample.agent true)
                                 Sample.bodyA)
                [] (value_of_decision (with_actions Sample.decisionA (Some []))))
  = [].
Proof.
  apply (@empty_actions_as_null (Sample.answering Sample.silence) (Sample.agent true) _ []
                                (with_actions Sample.decisionA (Some []))).
  reflexivity.
Defined.

Section Commit.

Context {host : Host}.

Lemma responses_settled (rt : IAgentRuntime) (rm : Message) (u r : UUID)
    (c : Content) (st : State) :
  responses (settled rt rm u r c st) = [].
Proof.
  unfold settled. destruct (createMemory rt rm); [|reflexivity]. simpl.
  destruct (evaluate rt _ st); [|reflexivity].
  destruct (truthy _); reflexivity.
Qed.


(** C2, as amended.  For every validated decision with all four fields
    null the turn answers the caller with that decision and calls no action
    handler, but the reply is passed to [createMemory] all the same, once,
    with a null text and no action tag: the handler has no branch for
    silence. *)
Theorem silent_decision_is_stored (rt : IAgentRuntime) (um : Message) (st : State)
    (d : Decision) :
  all_null d ->
  let tr := background rt um st (value_of_decision d) in
  created tr =
  [{| msg_content := {| text := None; action := None; source := None; attachments := None |};
      msg_userId := agentId rt;
      msg_roomId := msg_roomId um;
      msg_agentId := msg_agentId um |}] /\
  responses tr = [(200, Json (value_of_decision d))] /\
  dispatched tr = [].
Proof.
  intros [L [E [S A]]] tr.
  assert (C : contentObj_of d =
              {| text := None; action := None; source := None; attachments := None |}).
  { unfold contentObj_of. now rewrite L, E, S, A. }
  repeat split.
  - unfold tr. rewrite created_background, decision_of_value_of_decision.
    unfold responseMessage_of. now rewrite C.
  - unfold tr, background. cbn [responses]. now rewrite responses_settled.
  - unfold tr, background. cbn [dispatched]. rewrite decision_of_value_of_decision.
    apply dispatched_settled_falsy. cbn [msg_content responseMessage_of]. now rewrite C.
Qed.

End Commit.



Lemma silent_decision_is_stored_witness :
  dispatched (@background (Sample.answering Sample.silence) (Sample.agent true)
                (@userMessage_of (Sample.answering Sample.silence) (Sample.agent true)
                                 Sample.bodyA)
                [] (value_of_decision Sample.silence))
  = [].
Proof.
  apply (@silent_decision_is_stored (Sample.answering Sample.silence) (Sample.agent true)
           _ [] Sample.silence).
  repeat split.
Defined.

(** C2, as stated, fails: the turn of the sample agent whose backend
    answers the all-null decision creates a record. *)
Lemma silent_turn_creates_a_record :
  all_null Sample.silence /\
  ~ (Sample.recorded Sample.silence = []).
Proof.
  split; [repeat split | vm_compute; discriminate].
Qed.

(** ** The whole turn *)

(** [find] returns the first element that passes the test. *)
Lemma find_first {A : Type} (f : A -> bool) (l : list A) (x : A) :
  find f l = Some x <->
  exists before after,
    l = (before ++ x :: after)%list /\ f x = true /\
    forall a, In a before -> f a = false.
Proof.
  induction l as [|y l IH]; simpl.
  - split; [discriminate|]. intros [[|? ?] [after [E _]]]; discriminate E.
  - destruct (f y) eqn:F.
    + split.
      * intros [= ->]. exists [], l. repeat split; [exact F | contradiction].
      * intros [[|z before] [after [E [Fx N]]]]; injection E as E1 E2; subst.
        -- reflexivity.
        -- rewrite (N _ (or_introl eq_refl)) in F. discriminate F.
    + rewrite IH. split.
      * intros [before [after [-> [Fx N]]]]. exists (y :: before), after.
        repeat split; [exact Fx|]. intros a [<-|i]; [exact F | now apply N].
      * intros [[|z before] [after [E [Fx N]]]]; injection E as E1 E2; subst.
        -- rewrite Fx in F. discriminate F.
        -- exists before, after.
           repeat split; [exact Fx|]. intros a i. apply N. now right.
Qed.

Lemma find_none {A : Type} (f : A -> bool) (l : list A) :
  (forall a, In a l -> f a = false) -> find f l = None.
Proof.
  induction l as [|y l IH]; simpl; [reflexivity|]. intros N.
  rewrite (N y (or_introl eq_refl)). apply IH. intros a i. apply N. now right.
Qed.

Section WholeTurn.

Context {host : Host}.

(** A turn either stops before the reply is built, having created, stored,
    evaluated and dispatched nothing, or runs the background promise. *)
Lemma handler_cases (agents : registry) (req : Request) :
  (created (handler agents req) = [] /\ stored (handler agents req) = [] /\
   evaluated (handler agents req) = [] /\ dispatched (handler agents req) = []) \/
  exists rt st es ts object hfOut,
    resolve agents (agentIdOrName req) = Some rt /\
    composeState rt (userMessage_of rt (body req)) = Resolved st /\
    emotes (body req) = Some es /\
    triggers (body req) = Some ts /\
    generateObject rt (context_of st (body req) es ts) (createHyperfyOutSchema (body req))
    = Resolved (Some object) /\
    Zod.parse (createHyperfyOutSchema (body req)) object = Some hfOut.
Proof.
  destruct (resolve agents (agentIdOrName req)) as [rt|] eqn:Er;
    [|left; rewrite (handler_not_found _ _ Er); now repeat split].
  destruct (composeState rt (userMessage_of rt (body req))) as [st|] eqn:Ec;
    [|left; unfold handler; rewrite Er; fold (userMessage_of rt (body req));
      rewrite Ec; now repeat split].
  destruct (emotes (body req)) as [es|] eqn:Ee;
    [|left; unfold handler; rewrite Er; fold (userMessage_of rt (body req));
      rewrite Ec, Ee; now repeat split].
  destruct (triggers (body req)) as [ts|] eqn:Et;
    [|left; unfold handler; rewrite Er; fold (userMessage_of rt (body req));
      rewrite Ec, Ee, Et; now repeat split].
  rewrite (handler_decide _ _ _ _ _ _ Er Ec Ee Et). unfold decide.
  destruct (generateObject rt _ _) as [[object|]|] eqn:Eg;
    [|left; now repeat split|left; now repeat split].
  destruct (Zod.parse _ object) as [hfOut|] eqn:Ep; [|left; now repeat split].
  right. exists rt, st, es, ts, object, hfOut. now repeat split.
Qed.

(** The backend is called at most once, and not at all unless the agent
    resolved, the state was composed and both vocabularies are there. *)
Lemma backend_calls_handler (agents : registry) (req : Request) :
  backend_calls (handler agents req) = 0 \/
  (backend_calls (handler agents req) = 1 /\
   exists es ts, emotes (body req) = Some es /\ triggers (body req) = Some ts).
Proof.
  unfold handler.
  destruct (resolve agents (agentIdOrName req)) as [rt|]; [|now left].
  cbn [backend_calls]. destruct (composeState rt _) as [st|]; [|now left].
  destruct (emotes (body req)) as [es|]; [|now left].
  destruct (triggers (body req)) as [ts|]; [|now left].
  right. split; [|now exists es, ts].
  unfold decide. cbn [backend_calls]. f_equal.
  destruct (generateObject rt _ _) as [[object|]|]; try reflexivity.
  destruct (Zod.parse _ object) as [hfOut|]; [|reflexivity].
  unfold background, settled. cbn [backend_calls].
  destruct (createMemory rt _); [|reflexivity]. cbn [backend_calls].
  destruct (evaluate rt _ st); [|reflexivity].
  destruct (truthy _); reflexivity.
Qed.

(** C8.  The runtime of a request is the one registered under the
    identifier of the request if there is one; otherwise it is the first
    registered runtime whose character name equals the identifier once
    both are lower-cased; and when there is neither, the turn is the 404
    response ["Agent not found"] and nothing else: no state is composed,
    the backend is not called, nothing is stored. *)
Theorem agent_resolution (agents : registry) (req : Request) :
  let id := agentIdOrName req in
  (forall rt, Map_get agents id = Some rt -> resolve agents id = Some rt) /\
  (Map_get agents id = None ->
   forall rt,
     resolve agents id = Some rt <->
     exists before after,
       Map_values agents = (before ++ rt :: after)%list /\
       toLowerCase (character_name rt) = toLowerCase id /\
       forall a, In a before -> toLowerCase (character_name a) <> toLowerCase id) /\
  (Map_get agents id = None ->
   (forall a, In a (Map_values agents) ->
              toLowerCase (character_name a) <> toLowerCase id) ->
   resolve agents id = None /\
   handler agents req = [respond 404 (Text "Agent not found")] /\
   backend_calls (handler agents req) = 0).
Proof.
  intros id. split; [|split].
  - intros rt G. unfold resolve. now rewrite G.
  - intros G rt. unfold resolve. rewrite G, find_first.
    split; intros [before [after [E [F N]]]]; exists before, after; repeat split;
      try exact E.
    + now apply String.eqb_eq.
    + intros a i. apply String.eqb_neq. now apply N.
    + now apply String.eqb_eq.
    + intros a i. apply String.eqb_neq. now apply N.
  - intros G N.
    assert (R : resolve agents id = None).
    { unfold resolve. rewrite G. apply find_none.
      intros a i. apply String.eqb_neq. now apply N. }
    split; [exact R|]. rewrite (handler_not_found _ _ R). now split.
Qed.

(** C3, as amended.  For every request whose body has no [emotes] or no
    [triggers], the backend is not called and nothing is stored.  The
    handler has no error of its own for the missing vocabulary: when the
    agent is not resolved the turn is the 404 response; when the agent is
    resolved and [composeState] rejects, the turn ends with that rejection;
    and when the state is composed, the turn ends with the [TypeError] that
    [join] on the missing array throws, which nothing catches, and no
    response is sent to the caller. *)
Theorem missing_vocabulary (agents : registry) (req : Request) :
  emotes (body req) = None \/ triggers (body req) = None ->
  backend_calls (handler agents req) = 0 /\
  created (handler agents req) = [] /\
  (resolve agents (agentIdOrName req) = None ->
   handler agents req = [respond 404 (Text "Agent not found")]) /\
  (forall rt,
      resolve agents (agentIdOrName req) = Some rt ->
      composeState rt (userMessage_of rt (body req)) = Rejected ->
      handler agents req =
      [composeState_call (userMessage_of rt (body req));
       uncaught (rejection "composeState")]) /\
  (forall rt st,
      resolve agents (agentIdOrName req) = Some rt ->
      composeState rt (userMessage_of rt (body req)) = Resolved st ->
      handler agents req =
      [composeState_call (userMessage_of rt (body req)); uncaught join_of_undefined] /\
      responses (handler agents req) = []).
Proof.
  intros M. split; [|split; [|split; [|split]]].
  - destruct (backend_calls_handler agents req) as [Z|[_ [es [ts [Ee Et]]]]];
      [exact Z | destruct M as [M|M]; congruence].
  - destruct (handler_cases agents req)
      as [[C _]|[rt [st [es [ts [object [hfOut [_ [_ [Ee [Et _]]]]]]]]]]];
      [exact C | destruct M as [M|M]; congruence].
  - apply handler_not_found.
  - intros rt Er Ec. unfold handler. rewrite Er.
    fold (userMessage_of rt (body req)). now rewrite Ec.
  - intros rt st Er Ec.
    assert (T : handler agents req =
                [composeState_call (userMessage_of rt (body req));
                 uncaught join_of_undefined]).
    { unfold handler. rewrite Er.
      fold (userMessage_of rt (body req)). rewrite Ec.
      destruct M as [M|M]; rewrite M; [reflexivity|].
      destruct (emotes (body req)); reflexivity. }
    split; [exact T | now rewrite T].
Qed.

End WholeTurn.

Section Order.

Context {host : Host}.

(** C1, as amended.  In scenario A (body with room ["hyperfy"], emotes
    [wave] and [laugh], trigger [player1]; the backend answers look at
    [player1], emote [wave], say [hi], no actions) the response is the 200
    response that carries those four fields, and exactly one record is
    passed to [createMemory]: the reply of the agent, whose text is
    ["emoted wave"]. *)
Theorem scenario_A (agents : registry) (to : string) (rt : IAgentRuntime) (st : State) :
  let req := {| agentIdOrName := to; body := Sample.bodyA |} in
  resolve agents to = Some rt ->
  composeState rt (userMessage_of rt Sample.bodyA) = Resolved st ->
  generateObject rt (context_of st Sample.bodyA ["wave"; "laugh"] ["player1"])
                 (createHyperfyOutSchema Sample.bodyA)
  = Resolved (Some (value_of_decision Sample.decisionA)) ->
  responses (handler agents req) =
  [(200, Json (VObj [("lookAt", VStr "player1"); ("emote", VStr "wave");
                     ("say", VStr "hi"); ("actions", VNull)]))] /\
  created (handler agents req) =
  [{| msg_content :=
        {| text := Some "emoted wave"; action := None; source := None;
           attachments := None |};
      msg_userId := agentId rt;
      msg_roomId := stringToUuid "hyperfy";
      msg_agentId := agentId rt |}].
Proof.
  intros req Er Ec Eg.
  rewrite (handler_background agents req rt st ["wave"; "laugh"] ["player1"]
             (value_of_decision Sample.decisionA) (value_of_decision Sample.decisionA)
             Er Ec eq_refl eq_refl Eg (parse_decision _ _)).
  split.
  - unfold background. cbn [responses]. now rewrite responses_settled.
  - cbn [created]. now rewrite created_background, decision_of_value_of_decision.
Qed.


Lemma stored_app (pre post : list event) (m : Message) :
  In (createMemory_done m) pre -> In m (stored (pre ++ post)).
Proof.
  induction pre as [|e pre IH]; simpl; [contradiction|].
  intros [->|i]; [now left|].
  destruct e; simpl; auto.
Qed.

(** Whatever a turn stores, it had passed to [createMemory]. *)
Lemma stored_created_handler (agents : registry) (req : Request) (m : Message) :
  In m (stored (handler agents req)) -> In m (created (handler agents req)).
Proof.
  destruct (handler_cases agents req)
    as [[_ [S _]]|[rt [st [es [ts [object [hfOut [Er [Ec [Ee [Et [Eg Ep]]]]]]]]]]]].
  - rewrite S. contradiction.
  - rewrite (handler_background agents req rt st es ts object hfOut Er Ec Ee Et Eg Ep).
    cbn [created stored]. rewrite created_background.
    unfold background, settled. cbn [stored].
    destruct (createMemory rt _); [|contradiction]. cbn [stored].
    destruct (evaluate rt _ st); [destruct (truthy _)|]; simpl; tauto.
Qed.

(** C5.  In every turn, a call of [processActions] carries the reply of
    the turn, a record the turn passed to [createMemory], and comes after
    the event that [createMemory] of this reply has resolved; and when the
    store rejects the record of the turn, [processActions] is not called at
    all, whatever [actions] names. *)
Theorem record_before_dispatch (agents : registry) (req : Request) :
  (forall pre post mem rs st,
      handler agents req = (pre ++ processActions_call mem rs st :: post)%list ->
      exists rm,
        rs = [rm] /\ In (createMemory_done rm) pre /\
        In rm (created (handler agents req))) /\
  (forall rt,
      resolve agents (agentIdOrName req) = Some rt ->
      (forall rm, In rm (created (handler agents req)) -> createMemory rt rm = Rejected) ->
      dispatched (handler agents req) = [] /\ stored (handler agents req) = []).
Proof.
  split.
  - intros pre post mem rs st E.
    destruct (guarded_split _ _ _ _ _ _ _ (guarded_handler agents req) E)
      as [rm [R [[]|i]]].
    exists rm. repeat split; [exact R | exact i |].
    apply stored_created_handler. rewrite E. now apply stored_app.
  - intros rt Er F.
    destruct (handler_cases agents req)
      as [[_ [S [_ D]]]|[rt' [st [es [ts [object [hfOut [Er' [Ec [Ee [Et [Eg Ep]]]]]]]]]]]];
      [now split|].
    assert (rt' = rt) as -> by congruence.
    rewrite (handler_background agents req rt st es ts object hfOut Er' Ec Ee Et Eg Ep)
      in F |- *.
    cbn [created] in F. rewrite created_background in F.
    specialize (F _ (or_introl eq_refl)).
    unfold background, settled. rewrite F. now split.
Qed.

End Order.

(** ** The theorems at work on the sample agent *)

Lemma scenario_A_witness :
  Sample.recorded Sample.decisionA =
  [{| msg_content :=
        {| text := Some "emoted wave"; action := None; source := None;
           attachments := None |};
      msg_userId := "agent-1";
      msg_roomId := "uuid:hyperfy";
      msg_agentId := "agent-1" |}].
Proof.
  apply (@scenario_A (Sample.answering Sample.decisionA) (Sample.agents true) "agent-1"
           (Sample.agent true) [("agentName", "Eliza")]); reflexivity.
Defined.

(** C1, as stated, fails: in scenario A the record that is created does
    not have the text ["hi. Then I looked at player1 and "]. *)
Lemma scenario_A_text_is_overwritten :
  ~ (exists rm,
        Sample.recorded Sample.decisionA = [rm] /\
        text (msg_content rm) = Some "hi. Then I looked at player1 and ").
Proof.
  intros [rm [R T]]. vm_compute in R. injection R as <-. discriminate T.
Qed.

Lemma missing_vocabulary_witness :
  backend_calls (@handler (Sample.answering Sample.decisionA) (Sample.agents true)
                          (Sample.request "agent-1" Sample.bodyNoEmotes)) = 0 /\
  @handler (Sample.answering Sample.decisionA) (Sample.agents true)
           (Sample.request "agent-1" Sample.bodyNoEmotes) =
  [composeState_call (@userMessage_of (Sample.answering Sample.decisionA)
                                      (Sample.agent true) Sample.bodyNoEmotes);
   uncaught join_of_undefined] /\
  @handler (Sample.answering Sample.decisionA) (registerAgent [] Demo.stateless)
           (Sample.request "agent-3" Sample.bodyNoEmotes) =
  [composeState_call (@userMessage_of (Sample.answering Sample.decisionA)
                                      Demo.stateless Sample.bodyNoEmotes);
   uncaught (rejection "composeState")] /\
  @handler (Sample.answering Sample.decisionA) (Sample.agents true)
           (Sample.request "nonexistent" Sample.bodyNoEmotes) =
  [respond 404 (Text "Agent not found")].
Proof.
  destruct (@missing_vocabulary (Sample.answering Sample.decisionA) (Sample.agents true)
              (Sample.request "agent-1" Sample.bodyNoEmotes) (or_introl eq_refl))
    as [B [_ [_ [_ T]]]].
  destruct (@missing_vocabulary (Sample.answering Sample.decisionA)
              (registerAgent [] Demo.stateless)
              (Sample.request "agent-3" Sample.bodyNoEmotes) (or_introl eq_refl))
    as [_ [_ [_ [R _]]]].
  destruct (@missing_vocabulary (Sample.answering Sample.decisionA) (Sample.agents true)
              (Sample.request "nonexistent" Sample.bodyNoEmotes) (or_introl eq_refl))
    as [_ [_ [N _]]].
  split; [exact B|]. split; [|split].
  - apply (T (Sample.agent true) [("agentName", "Eliza")]); reflexivity.
  - apply (R Demo.stateless); reflexivity.
  - apply N. reflexivity.
Defined.

(** C3, as stated, fails: a request without [emotes] that names an agent
    nobody registered is answered with the 404 response; the turn does not
    end with the failure of the missing vocabulary.  And where the turn
    does end with it, the caller is sent nothing. *)
Lemma missing_vocabulary_is_not_reported :
  emotes (body (Sample.request "nonexistent" Sample.bodyNoEmotes)) = None /\
  @handler (Sample.answering Sample.decisionA) (Sample.agents true)
           (Sample.request "nonexistent" Sample.bodyNoEmotes)
  = [respond 404 (Text "Agent not found")] /\
  ~ In (uncaught join_of_undefined)
       (@handler (Sample.answering Sample.decisionA) (Sample.agents true)
                 (Sample.request "nonexistent" Sample.bodyNoEmotes)) /\
  responses (@handler (Sample.answering Sample.decisionA) (Sample.agents true)
                      (Sample.request "agent-1" Sample.bodyNoEmotes)) = [].
Proof.
  split; [reflexivity|]. split; [reflexivity|]. split; [|reflexivity].
  vm_compute. intros [E|[]]. discriminate E.
Qed.



Lemma record_before_dispatch_witness :
  (exists rm,
      [responseMessage_of (Sample.agent true)
         (@userMessage_of (Sample.answering Sample.waving) (Sample.agent true) Sample.bodyA)
         Sample.waving] = [rm] /\
      In (createMemory_done rm)
         (firstn 6 (@handler (Sample.answering Sample.waving) (Sample.agents true)
                             (Sample.request "agent-1" Sample.bodyA))) /\
      In rm (Sample.recorded Sample.waving)) /\
  dispatched (@handler (Sample.answering Sample.waving) (Sample.agents false)
                       (Sample.request "agent-1" Sample.bodyA)) = [].
Proof.
  split.
  - apply (proj1 (@record_before_dispatch (Sample.answering Sample.waving)
                    (Sample.agents true) (Sample.request "agent-1" Sample.bodyA))
             _ []
             (@stimulus (Sample.answering Sample.waving) (Sample.agent true)
                        "uuid:hyperfy" "uuid:hyperfy"
                        (msg_content (@userMessage_of (Sample.answering Sample.waving)
                                                      (Sample.agent true) Sample.bodyA)))
             _ [("agentName", "Eliza")]).
    vm_compute. reflexivity.
  - apply (proj2 (@record_before_dispatch (Sample.answering Sample.waving)
                    (Sample.agents false) (Sample.request "agent-1" Sample.bodyA))
             (Sample.agent false)).
    + reflexivity.
    + intros rm i. reflexivity.
Defined.

Lemma agent_resolution_witness :
  @resolve (Sample.answering Sample.silence) (Sample.agents true) "agent-1"
  = Some (Sample.agent true) /\
  @resolve (Sample.answering Sample.silence) (Sample.agents true) "ELIZA"
  = Some (Sample.agent true) /\
  @handler (Sample.answering Sample.silence) (Sample.agents true)
           (Sample.request "nonexistent" Sample.bodyA)
  = [respond 404 (Text "Agent not found")].
Proof.
  split; [|split].
  - apply (proj1 (@agent_resolution (Sample.answering Sample.silence) (Sample.agents true)
                    (Sample.request "agent-1" Sample.bodyA))).
    reflexivity.
  - apply (proj1 (proj2 (@agent_resolution (Sample.answering Sample.silence)
                           (Sample.agents true) (Sample.request "ELIZA" Sample.bodyA)))
             eq_refl (Sample.agent true)).
    exists [], []. split; [reflexivity|]. split; [reflexivity|]. intros a [].
  - apply (proj2 (proj2 (@agent_resolution (Sample.answering Sample.silence)
                           (Sample.agents true)
                           (Sample.request "nonexistent" Sample.bodyA)))).
    + reflexivity.
    + intros a [<-|[]]. vm_compute. discriminate.
Defined.

(** * Further properties of the client *)

(** ** The prompt (client.ts, lines 125-143) *)

Lemma expand_other (c : ascii) (r before matched after : string) :
  Ascii.eqb c "$" = false ->
  expand (String c r) before matched after = String c (expand r before matched after).
Proof.
  destruct c as [b0 b1 b2 b3 b4 b5 b6 b7].
  destruct b0, b1, b2, b3, b4, b5, b6, b7; intros E; try reflexivity; discriminate E.
Qed.

(** A replacement without a dollar stands for itself. *)
Lemma expand_dollar_free (replacement before matched after : string) :
  dollar_free replacement = true ->
  expand replacement before matched after = replacement.
Proof.
  unfold dollar_free. induction replacement as [|c r IH]; [reflexivity|].
  cbn [has_char]. rewrite negb_orb, andb_true_iff, negb_true_iff. intros [C R].
  rewrite (expand_other _ _ _ _ _ C). now rewrite (IH R).
Qed.

Lemma prefix_past (pattern X R : string) (c : ascii) :
  has_char c pattern = false ->
  String.prefix pattern X = false ->
  String.prefix pattern (X ++ String c R) = false.
Proof.
  revert X. induction pattern as [|p pattern IH]; intros X H P.
  - destruct X; discriminate P.
  - cbn [has_char] in H. apply orb_false_iff in H as [Hp H].
    destruct X as [|x X]; cbn [String.append String.prefix] in *.
    + destruct (ascii_dec p c) as [->|ne]; [|reflexivity].
      rewrite Ascii.eqb_refl in Hp. discriminate Hp.
    + destruct (ascii_dec p x); [now apply IH | reflexivity].
Qed.

(** A stretch without the pattern, followed by a character that is not in
    the pattern, is passed over by the search. *)
Lemma split_at_past (pattern X R : string) (c : ascii) :
  has_char c pattern = false ->
  occurs pattern X = false ->
  split_at pattern (X ++ String c R) =
  match split_at pattern R with
  | Some (before, after) => Some (X ++ String c before, after)
  | None => None
  end.
Proof.
  intros H. unfold occurs. induction X as [|x X IH]; intros O.
  - cbn [String.append]. cbn [split_at] in O |- *.
    destruct pattern as [|p pattern]; [discriminate O|].
    cbn [has_char] in H. apply orb_false_iff in H as [Hp _].
    cbn [String.prefix]. destruct (ascii_dec p c) as [->|ne].
    + rewrite Ascii.eqb_refl in Hp. discriminate Hp.
    + destruct (split_at (String p pattern) R) as [[b a]|]; reflexivity.
  - cbn [String.append]. cbn [split_at] in O |- *.
    destruct (String.prefix pattern (String x X)) eqn:P; [discriminate O|].
    change (String x (X ++ String c R)) with (String x X ++ String c R).
    rewrite (prefix_past _ _ _ _ H P). cbn [String.append].
    destruct (split_at pattern X) as [[b a]|]; [discriminate O|].
    rewrite (IH eq_refl).
    destruct (split_at pattern R) as [[b a]|]; reflexivity.
Qed.

(** With the first occurrence found and no dollar in the replacement,
    [replace] puts the replacement in its place. *)
Lemma replace_at (s pattern replacement before after : string) :
  split_at pattern s = Some (before, after) ->
  dollar_free replacement = true ->
  replace s pattern replacement = before ++ replacement ++ after.
Proof.
  intros S D. unfold replace. rewrite S. now rewrite expand_dollar_free.
Qed.

Lemma append_assoc (a b c : string) : (a ++ b) ++ c = a ++ b ++ c.
Proof. induction a as [|x a IH]; cbn [String.append]; [reflexivity | now rewrite IH]. Qed.

Lemma prefix_append (pattern A B : string) :
  String.prefix pattern A = true -> String.prefix pattern (A ++ B) = true.
Proof.
  revert A. induction pattern as [|p pattern IH]; intros A P; [now destruct (A ++ B)|].
  destruct A as [|x A]; [discriminate P|]. cbn [String.append String.prefix] in *.
  destruct (ascii_dec p x); [now apply IH | discriminate P].
Qed.

(** A pattern that does not occur in a string does not occur at its
    beginning. *)
Lemma occurs_append (pattern A B : string) :
  occurs pattern (A ++ B) = false -> occurs pattern A = false.
Proof.
  unfold occurs. induction A as [|x A IH].
  - destruct pattern; [destruct B; discriminate | reflexivity].
  - cbn [String.append split_at].
    destruct (String.prefix pattern (String x A)) eqn:P.
    + change (String x (A ++ B)) with (String x A ++ B).
      rewrite (prefix_append _ _ _ P). discriminate.
    + destruct (String.prefix pattern (String x (A ++ B))); [discriminate|].
      destruct (split_at pattern (A ++ B)) as [[b a]|]; [discriminate|].
      intros _. specialize (IH eq_refl).
      destruct (split_at pattern A) as [[b a]|]; [discriminate IH | reflexivity].
Qed.

(** Passing over an unknown stretch [X] that is followed by [c]. *)
Lemma skip_open (pattern X R' R B b a : string) (c : ascii) :
  R' = String c R ->
  B = String c b ->
  has_char c pattern = false ->
  occurs pattern X = false ->
  split_at pattern R = Some (b, a) ->
  split_at pattern (X ++ R') = Some (X ++ B, a).
Proof.
  intros -> -> H O S. rewrite (split_at_past _ _ _ _ H O). now rewrite S.
Qed.

(** Passing over a stretch [X] that ends with [c]. *)
Lemma skip_closed (pattern X X0 R b a : string) (c : ascii) :
  X = X0 ++ String c EmptyString ->
  has_char c pattern = false ->
  occurs pattern X = false ->
  split_at pattern R = Some (b, a) ->
  split_at pattern (X ++ R) = Some (X ++ b, a).
Proof.
  intros -> H O S. rewrite append_assoc. cbn [String.append].
  rewrite (split_at_past _ _ _ _ H (occurs_append _ _ _ O)).
  rewrite S. now rewrite append_assoc.
Qed.

(** X1.  When the serialised body and the two joined vocabularies hold no
    dollar, the body holds neither [{{emotes}}] nor [{{triggers}}] and the
    joined emotes do not hold [{{triggers}}], the prompt handed to
    [composeContext] is the template with the serialised body, the joined
    emotes and the joined triggers each in the place of its placeholder. *)
Theorem prompt_layout (host : Host) (st : State) (b : Body) (es ts : list string) :
  let J := JSON_stringify_indent b in
  let E := join es "|" in
  let T := join ts "|" in
  dollar_free J = true ->
  dollar_free E = true ->
  dollar_free T = true ->
  occurs "{{emotes}}" J = false ->
  occurs "{{triggers}}" J = false ->
  occurs "{{triggers}}" E = false ->
  hyperfyHandlerTemplate =
  before_hyperfy ++ "{{hyperfy}}" ++ before_emotes ++ "{{emotes}}" ++
  before_triggers ++ "{{triggers}}" ++ after_triggers /\
  context_of st b es ts =
  composeContext st
    (before_hyperfy ++ J ++ before_emotes ++ E ++ before_triggers ++ T ++ after_triggers).
Proof.
  intros J E T DJ DE DT OJe OJt OEt.
  split; [vm_compute; reflexivity|].
  unfold context_of. fold J E T. f_equal.
  pose (nl := ascii_of_nat 10). pose (q := ascii_of_nat 34).
  pose (R2 := before_triggers ++ "{{triggers}}" ++ after_triggers).
  pose (R1 := before_emotes ++ "{{emotes}}" ++ R2).
  assert (S1 : split_at "{{hyperfy}}" hyperfyHandlerTemplate = Some (before_hyperfy, R1))
    by (vm_compute; reflexivity).
  rewrite (replace_at _ _ _ _ _ S1 DJ).
  assert (S2 : split_at "{{emotes}}" (before_hyperfy ++ J ++ R1)
               = Some (before_hyperfy ++ J ++ before_emotes, R2)).
  { apply (skip_closed _ _ (substring 0 654 before_hyperfy) _ _ _ nl);
      try (vm_compute; reflexivity).
    apply (skip_open _ J R1 (drop 1 R1) before_emotes (drop 1 before_emotes) R2 nl);
      try (vm_compute; reflexivity).
    exact OJe. }
  rewrite (replace_at _ _ _ _ _ S2 DE). rewrite !append_assoc.
  assert (S3 : split_at "{{triggers}}" (before_hyperfy ++ J ++ before_emotes ++ E ++ R2)
               = Some (before_hyperfy ++ J ++ before_emotes ++ E ++ before_triggers,
                       after_triggers)).
  { apply (skip_closed _ _ (substring 0 654 before_hyperfy) _ _ _ nl);
      try (vm_compute; reflexivity).
    apply (skip_open _ J (before_emotes ++ E ++ R2) (drop 1 before_emotes ++ E ++ R2)
             (before_emotes ++ E ++ before_triggers)
             (drop 1 before_emotes ++ E ++ before_triggers) after_triggers nl);
      try reflexivity; try exact OJt.
    apply (skip_closed _ (drop 1 before_emotes) (substring 1 436 before_emotes) _ _ _ q);
      try (vm_compute; reflexivity).
    apply (skip_open _ E R2 (drop 1 R2) before_triggers (drop 1 before_triggers)
             after_triggers q);
      try (vm_compute; reflexivity).
    exact OEt. }
  rewrite (replace_at _ _ _ _ _ S3 DT). now rewrite !append_assoc.
Qed.

Lemma prompt_layout_witness :
  @context_of (Sample.answering Sample.silence) [] Sample.bodyA ["wave"; "laugh"] ["player1"]
  = before_hyperfy ++ "{}" ++ before_emotes ++ "wave|laugh" ++ before_triggers ++
    "player1" ++ after_triggers.
Proof.
  apply (prompt_layout (Sample.answering Sample.silence) [] Sample.bodyA
           ["wave"; "laugh"] ["player1"]); reflexivity.
Defined.

(** ** The registry (client.ts, lines 72-74, 80-90 and 295-305) *)

Lemma Map_get_set_same (agents : registry) (k : string) (r : IAgentRuntime) :
  Map_get (Map_set agents k r) k = Some r.
Proof.
  induction agents as [|[k' r'] rest IH]; simpl.
  - now rewrite String.eqb_refl.
  - destruct (String.eqb k' k) eqn:E; simpl; [now rewrite String.eqb_refl|].
    now rewrite E.
Qed.

Lemma Map_get_set_other (agents : registry) (k k' : string) (r : IAgentRuntime) :
  k' <> k -> Map_get (Map_set agents k r) k' = Map_get agents k'.
Proof.
  intros ne. induction agents as [|[k0 r0] rest IH]; simpl.
  - apply String.eqb_neq in ne. rewrite String.eqb_sym. now rewrite ne.
  - destruct (String.eqb_spec k0 k) as [->|n0]; simpl.
    + apply not_eq_sym, String.eqb_neq in ne. now rewrite ne.
    + now rewrite IH.
Qed.

Lemma Map_get_delete_same (agents : registry) (k : string) :
  Map_get (Map_delete agents k) k = None.
Proof.
  induction agents as [|[k' r'] rest IH]; simpl; [reflexivity|].
  destruct (String.eqb k' k) eqn:E; simpl; [exact IH | now rewrite E].
Qed.

Lemma Map_get_delete_other (agents : registry) (k k' : string) :
  k' <> k -> Map_get (Map_delete agents k) k' = Map_get agents k'.
Proof.
  intros ne. induction agents as [|[k0 r0] rest IH]; simpl; [reflexivity|].
  destruct (String.eqb_spec k0 k) as [->|n0]; simpl.
  - apply not_eq_sym, String.eqb_neq in ne. now rewrite ne.
  - now rewrite IH.
Qed.

Lemma Map_get_In (agents : registry) (k : string) (r : IAgentRuntime) :
  Map_get agents k = Some r -> In (k, r) agents.
Proof.
  induction agents as [|[k' r'] rest IH]; simpl; [discriminate|].
  destruct (String.eqb_spec k' k) as [->|ne].
  - intros [= ->]. now left.
  - intros G. right. now apply IH.
Qed.

Lemma Map_get_None (agents : registry) (k : string) :
  Map_get agents k = None <-> ~ In k (Map_keys agents).
Proof.
  induction agents as [|[k' r'] rest IH]; simpl; [tauto|].
  destruct (String.eqb_spec k' k) as [->|ne].
  - split; [discriminate | intros N; exfalso; apply N; now left].
  - rewrite IH. split; [intros N [e|i]; [congruence | now apply N] | tauto].
Qed.

Lemma Map_keys_set (agents : registry) (k : string) (r : IAgentRuntime) :
  Map_keys (Map_set agents k r) =
  if in_dec string_dec k (Map_keys agents) then Map_keys agents
  else (Map_keys agents ++ [k])%list.
Proof.
  induction agents as [|[k' r'] rest IH]; simpl; [reflexivity|].
  destruct (String.eqb_spec k' k) as [->|ne]; simpl.
  - destruct (string_dec k k) as [e|n]; [reflexivity | now destruct n].
  - rewrite IH. destruct (string_dec k' k) as [e|n]; [contradiction|].
    destruct (in_dec string_dec k (Map_keys rest)); reflexivity.
Qed.

Lemma Map_values_set_fresh (agents : registry) (k : string) (r : IAgentRuntime) :
  ~ In k (Map_keys agents) ->
  Map_values (Map_set agents k r) = (Map_values agents ++ [r])%list.
Proof.
  unfold Map_values.
  induction agents as [|[k' r'] rest IH]; simpl; intros N; [reflexivity|].
  destruct (String.eqb_spec k' k) as [e|ne]; [exfalso; apply N; now left|].
  simpl. rewrite IH; [reflexivity | tauto].
Qed.

Lemma Map_set_In (agents : registry) (k k0 : string) (r r0 : IAgentRuntime) :
  In (k0, r0) (Map_set agents k r) -> (k0, r0) = (k, r) \/ In (k0, r0) agents.
Proof.
  induction agents as [|[k' r'] rest IH]; simpl.
  - intros [e|[]]. now left.
  - destruct (String.eqb k' k); simpl.
    + intros [e|i]; [left; now symmetry | right; now right].
    + intros [e|i]; [right; now left|]. destruct (IH i); auto.
Qed.

Lemma Map_delete_fresh (agents : registry) (k : string) :
  ~ In k (Map_keys agents) -> Map_delete agents k = agents.
Proof.
  unfold Map_delete.
  induction agents as [|[k' r'] rest IH]; simpl; [reflexivity|]. intros N.
  destruct (String.eqb_spec k' k) as [->|ne]; [exfalso; apply N; now left|].
  simpl. rewrite IH; [reflexivity | tauto].
Qed.

Lemma Map_delete_set_fresh (agents : registry) (k : string) (r : IAgentRuntime) :
  ~ In k (Map_keys agents) -> Map_delete (Map_set agents k r) k = agents.
Proof.
  unfold Map_delete.
  induction agents as [|[k' r'] rest IH]; simpl; intros N.
  - now rewrite String.eqb_refl.
  - destruct (String.eqb_spec k' k) as [->|ne]; [exfalso; apply N; now left|].
    simpl. apply String.eqb_neq in ne. rewrite ne. simpl.
    rewrite IH; [reflexivity | tauto].
Qed.

Lemma Map_keys_delete (agents : registry) (k : string) :
  Map_keys (Map_delete agents k) = filter (fun x => negb (String.eqb x k)) (Map_keys agents).
Proof.
  induction agents as [|[k' r'] rest IH]; simpl; [reflexivity|].
  destruct (String.eqb k' k); simpl; [exact IH | now rewrite <- IH].
Qed.

Lemma find_found_app {A : Type} (f : A -> bool) (l more : list A) (x : A) :
  find f l = Some x -> find f (l ++ more) = Some x.
Proof.
  induction l as [|y l IH]; simpl; [discriminate|].
  destruct (f y); [trivial | exact IH].
Qed.

Section Registry.

Context {host : Host}.

(** X2.  Once an agent is registered, a request addressed to its
    [agentId] is answered by this runtime, whatever was registered under
    that identifier before: the turn starts by composing its state.  Lookups
    of every other identifier are as they were. *)
Theorem register_then_resolve (agents : registry) (rt : IAgentRuntime) (b : Body) :
  resolve (registerAgent agents rt) (agentId rt) = Some rt /\
  (exists rest,
      handler (registerAgent agents rt) {| agentIdOrName := agentId rt; body := b |}
      = composeState_call (userMessage_of rt b) :: rest) /\
  (forall id, id <> agentId rt ->
              Map_get (registerAgent agents rt) id = Map_get agents id).
Proof.
  assert (R : resolve (registerAgent agents rt) (agentId rt) = Some rt).
  { unfold resolve, registerAgent. now rewrite Map_get_set_same. }
  split; [exact R|]. split.
  - unfold handler. cbn [agentIdOrName body]. rewrite R.
    fold (userMessage_of rt b). eexists. reflexivity.
  - intros id ne. now apply Map_get_set_other.
Qed.

(** X3.  After [unregisterAgent] the identifier of the agent is not in the
    registry any more, neither for the lookup nor in the list of [/health];
    the other identifiers are looked up as before. *)
Theorem unregister_forgets (agents : registry) (rt : IAgentRuntime) :
  Map_get (unregisterAgent agents rt) (agentId rt) = None /\
  ~ In (agentId rt) (Map_keys (unregisterAgent agents rt)) /\
  (forall id, id <> agentId rt ->
              Map_get (unregisterAgent agents rt) id = Map_get agents id).
Proof.
  unfold unregisterAgent. split; [apply Map_get_delete_same|]. split.
  - apply Map_get_None, Map_get_delete_same.
  - intros id ne. now apply Map_get_delete_other.
Qed.

(** X4.  The registry keeps its shape: no identifier is listed twice and
    every runtime is filed under its own [agentId].  This holds of the empty
    registry and is kept by [registerAgent] and by [unregisterAgent]. *)
Theorem registry_well_keyed (agents : registry) (rt : IAgentRuntime) :
  well_keyed [] /\
  (well_keyed agents -> well_keyed (registerAgent agents rt)) /\
  (well_keyed agents -> well_keyed (unregisterAgent agents rt)).
Proof.
  split; [split; [constructor | intros k r []]|]. split.
  - intros [N K]. unfold registerAgent. split.
    + rewrite Map_keys_set.
      destruct (in_dec string_dec (agentId rt) (Map_keys agents)) as [i|n]; [exact N|].
      apply NoDup_app; [exact N | |].
      * constructor; [intros [] | constructor].
      * intros x i [<-|[]]. now apply n.
    + intros k r i. apply Map_set_In in i as [[= -> ->]|i]; [reflexivity | now apply K].
  - intros [N K]. unfold unregisterAgent. split.
    + rewrite Map_keys_delete. now apply NoDup_filter.
    + intros k r i. apply filter_In in i as [i _]. now apply K.
Qed.


(** X6.  Registering an agent under a new identifier and unregistering it
    gives the registry back as it was. *)
Theorem register_unregister (agents : registry) (rt : IAgentRuntime) :
  ~ In (agentId rt) (Map_keys agents) ->
  unregisterAgent (registerAgent agents rt) rt = agents.
Proof. intros N. unfold unregisterAgent, registerAgent. now apply Map_delete_set_fresh. Qed.

(** X7.  In a registry built by [registerAgent] and [unregisterAgent], the
    runtime that answers a request is registered, and its [agentId] is the
    identifier of the request or its character name is that identifier up
    to case. *)
Theorem resolve_sound (agents : registry) (id : string) (rt : IAgentRuntime) :
  well_keyed agents ->
  resolve agents id = Some rt ->
  In (agentId rt, rt) agents /\
  (agentId rt = id \/ toLowerCase (character_name rt) = toLowerCase id).
Proof.
  intros [_ K]. unfold resolve.
  destruct (Map_get agents id) as [r|] eqn:G.
  - intros [= ->]. apply Map_get_In in G. pose proof (K _ _ G) as ->. auto.
  - intros F. apply find_some in F as [i E]. apply String.eqb_eq in E. split; [|now right].
    unfold Map_values in i. apply in_map_iff in i as [[k r] [<- i]].
    cbn [snd]. now rewrite <- (K _ _ i).
Qed.

(** X8.  Registering an agent under a new identifier does not take away a
    request from the runtime that answered it before, unless the request
    is addressed to the new identifier. *)
Theorem register_keeps_answers (agents : registry) (rt new : IAgentRuntime) (id : string) :
  ~ In (agentId new) (Map_keys agents) ->
  id <> agentId new ->
  resolve agents id = Some rt ->
  resolve (registerAgent agents new) id = Some rt.
Proof.
  intros N ne. unfold resolve.
  unfold registerAgent at 1. rewrite (Map_get_set_other _ _ _ _ ne).
  destruct (Map_get agents id) as [r|]; [trivial|].
  unfold registerAgent. rewrite (Map_values_set_fresh _ _ _ N).
  intros F. now apply find_found_app.
Qed.

End Registry.

(** ** Validation of the backend answer (client.ts, lines 145-190 and 210-220) *)

Lemma parse_literals_other (vocabulary : list string) (v : value) :
  (forall s, v <> VStr s) ->
  Zod.parse (Zod.union (map Zod.literal vocabulary)) v = None.
Proof.
  intros N. induction vocabulary as [|w rest IH]; simpl; [reflexivity|].
  destruct v; try exact IH. now destruct (N s).
Qed.

(** The schema of a vocabulary validates like that of the empty one. *)
Lemma parse_vocabulary_any (vocabulary : list string) (v : value) :
  Zod.parse (vocabularySchema vocabulary) v = Zod.parse (vocabularySchema []) v.
Proof.
  destruct v as [| |b|n|s|items|props];
    try (destruct vocabulary as [|w rest]; [reflexivity|];
         unfold vocabularySchema;
         match goal with
         | |- Zod.parse _ ?v = _ =>
             pose proof (parse_literals_other (w :: rest) v) as L
         end;
         cbn [Zod.parse] in L |- *; rewrite L; [reflexivity | discriminate]).
  exact (eq_trans (parse_vocabulary vocabulary (Some s))
                  (eq_sym (parse_vocabulary [] (Some s)))).
Qed.

Lemma parse_vocabulary_iff (vocabulary : list string) (x y : value) :
  Zod.parse (vocabularySchema vocabulary) x = Some y <->
  exists o, x = of_nullable_string o /\ y = x.
Proof.
  rewrite parse_vocabulary_any. split.
  - destruct x; cbn; try discriminate; intros [= <-];
      [now exists None | now exists (Some s)].
  - intros [o [-> ->]]. apply parse_vocabulary.
Qed.

Lemma parse_nullable_string_iff (x y : value) :
  Zod.parse (Zod.nullable Zod.string_) x = Some y <->
  exists o, x = of_nullable_string o /\ y = x.
Proof.
  split.
  - destruct x; cbn; try discriminate; intros [= <-];
      [now exists None | now exists (Some s)].
  - intros [[s|] [-> ->]]; reflexivity.
Qed.

Lemma parse_strings_exact (items : list value) (o : value) :
  Zod.parse (Zod.array Zod.string_) (VArr items) = Some o ->
  exists l, items = map VStr l /\ o = VArr items.
Proof.
  simpl. revert o. induction items as [|x items IH]; simpl; intros o E.
  - injection E as <-. now exists [].
  - destruct x as [| | | |s| |]; try discriminate.
    destruct ((fix each (l0 : list value) : option (list value) := _) items) as [ys|];
      [|discriminate].
    destruct (IH (VArr ys) eq_refl) as [l [-> [= ->]]].
    injection E as <-. now exists (s :: l).
Qed.

Lemma parse_nullable_strings_iff (x y : value) :
  Zod.parse (Zod.nullable (Zod.array Zod.string_)) x = Some y <->
  exists o, x = of_nullable_strings o /\ y = x.
Proof.
  split.
  - destruct x as [| | | | |items|]; try (cbn; discriminate).
    + cbn. intros [= <-]. now exists None.
    + change (Zod.parse (Zod.array Zod.string_) (VArr items) = Some y -> 
              exists o, VArr items = of_nullable_strings o /\ y = VArr items).
      intros E. apply parse_strings_exact in E as [l [-> ->]]. now exists (Some l).
  - intros [[l|] [-> ->]]; [|reflexivity].
    change (Zod.parse (Zod.array Zod.string_) (VArr (map VStr l)) = Some (VArr (map VStr l))).
    apply parse_strings.
Qed.

(** The validator of a body of the model, field by field. *)
Lemma validation_of_body (b : Body) (v hfOut : value) :
  Zod.parse (createHyperfyOutSchema b) v = Some hfOut <->
  exists props d,
    v = VObj props /\
    get props "lookAt" = of_nullable_string (lookAt d) /\
    get props "emote" = of_nullable_string (emote d) /\
    get props "say" = of_nullable_string (say d) /\
    get props "actions" = of_nullable_strings (actions d) /\
    hfOut = value_of_decision d.
Proof.
  unfold createHyperfyOutSchema. split.
  - destruct v as [| | | | | |props]; try (cbn [Zod.parse]; discriminate).
    rewrite parse_object4.
    destruct (Zod.parse (vocabularySchema (or_empty (triggers b))) (get props "lookAt"))
      as [l|] eqn:El; [|discriminate].
    destruct (Zod.parse (vocabularySchema (or_empty (emotes b))) (get props "emote"))
      as [e|] eqn:Ee; [|discriminate].
    destruct (Zod.parse (Zod.nullable Zod.string_) (get props "say")) as [s|] eqn:Es;
      [|discriminate].
    destruct (Zod.parse (Zod.nullable (Zod.array Zod.string_)) (get props "actions"))
      as [a|] eqn:Ea; [|discriminate].
    apply parse_vocabulary_iff in El as [l' [Gl ->]].
    apply parse_vocabulary_iff in Ee as [e' [Ge ->]].
    apply parse_nullable_string_iff in Es as [s' [Gs ->]].
    apply parse_nullable_strings_iff in Ea as [a' [Ga ->]].
    intros [= <-].
    exists props, {| lookAt := l'; emote := e'; say := s'; actions := a' |}.
    cbn [lookAt emote say actions]. repeat split; try assumption.
    unfold value_of_decision. cbn [lookAt emote say actions].
    now rewrite Gl, Ge, Gs, Ga.
  - intros [props [d [-> [Gl [Ge [Gs [Ga ->]]]]]]].
    rewrite parse_object4, Gl, Ge, Gs, Ga.
    rewrite !parse_vocabulary.
    rewrite (proj2 (parse_nullable_string_iff _ _) (ex_intro _ (say d) (conj eq_refl eq_refl))).
    rewrite (proj2 (parse_nullable_strings_iff _ _)
               (ex_intro _ (actions d) (conj eq_refl eq_refl))).
    reflexivity.
Qed.

(** X9.  For a request whose vocabularies, where present, are arrays of
    strings (lists [E] of emotes and [T] of triggers), the validator built
    for the turn accepts exactly the objects whose [lookAt], [emote] and
    [say] are each a string or null and whose [actions] is an array of
    strings or null; a key that is absent, or holds anything else, makes
    it refuse.  What it returns is the object of these four keys alone, in
    the order of the schema. *)
Theorem validation_exact (E T : option (list string)) (room : option string)
    (more : list (string * value)) (v hfOut : value) :
  Zod.parse (createHyperfyOutSchema
               {| roomId := room; emotes := E; triggers := T; extra := more |}) v
  = Some hfOut <->
  exists props d,
    v = VObj props /\
    get props "lookAt" = of_nullable_string (lookAt d) /\
    get props "emote" = of_nullable_string (emote d) /\
    get props "say" = of_nullable_string (say d) /\
    get props "actions" = of_nullable_strings (actions d) /\
    hfOut = value_of_decision d.
Proof. apply validation_of_body. Qed.

(** Two bodies of the model validate alike. *)
Lemma validation_of_bodies (b b' : Body) (v : value) :
  Zod.parse (createHyperfyOutSchema b) v = Zod.parse (createHyperfyOutSchema b') v.
Proof.
  unfold createHyperfyOutSchema.
  destruct v as [| | | | | |props]; try reflexivity.
  rewrite !parse_object4.
  rewrite (parse_vocabulary_any (or_empty (triggers b))),
          (parse_vocabulary_any (or_empty (emotes b))),
          (parse_vocabulary_any (or_empty (triggers b'))),
          (parse_vocabulary_any (or_empty (emotes b'))).
  reflexivity.
Qed.

(** X10.  Among the requests whose vocabularies, where present, are
    arrays of strings, the vocabularies have no effect on validation: for
    any lists [E], [T] and [E'], [T'] of emotes and triggers, present or
    not, the two validators accept the same answers and return the same
    objects.  (A literal of a string accepts nothing that [z.string()]
    does not.) *)
Theorem validation_ignores_vocabulary (E T E' T' : option (list string))
    (room room' : option string) (more more' : list (string * value)) (v : value) :
  Zod.parse (createHyperfyOutSchema
               {| roomId := room; emotes := E; triggers := T; extra := more |}) v
  = Zod.parse (createHyperfyOutSchema
                 {| roomId := room'; emotes := E'; triggers := T'; extra := more' |}) v.
Proof. apply validation_of_bodies. Qed.

(** X11.  What passed validation passes it again unchanged, and reading
    its four fields loses nothing: the answer sent to the caller is the
    object of the decision the reply is built from. *)
Theorem validated_answer_is_stable (b : Body) (v hfOut : value) :
  Zod.parse (createHyperfyOutSchema b) v = Some hfOut ->
  Zod.parse (createHyperfyOutSchema b) hfOut = Some hfOut /\
  value_of_decision (decision_of_value hfOut) = hfOut.
Proof.
  intros P. destruct (parse_inv _ _ _ P) as [d ->]. split.
  - apply parse_decision.
  - now rewrite decision_of_value_of_decision.
Qed.

(** ** The outcomes of a turn (client.ts, lines 78-291) *)

(** Splits a turn along every branch the handler can take. *)
Ltac turn_cases :=
  unfold handler, decide, background, settled;
  repeat match goal with
         | |- context [match ?x with _ => _ end] => destruct x eqn:?
         end.

Section Outcomes.

Context {host : Host}.

(** X12.  When the backend resolves to no response, or to an object the
    validator refuses, the turn is the two calls up to the backend and a
    500 response, with the message of lines 204-206 in the first case and
    of line 218 in the second: the backend is not asked again, nothing is
    stored, evaluated or dispatched. *)
Theorem backend_failure_is_500 (agents : registry) (req : Request)
    (rt : IAgentRuntime) (st : State) (es ts : list string) (answer : option value) :
  resolve agents (agentIdOrName req) = Some rt ->
  composeState rt (userMessage_of rt (body req)) = Resolved st ->
  emotes (body req) = Some es ->
  triggers (body req) = Some ts ->
  generateObject rt (context_of st (body req) es ts) (createHyperfyOutSchema (body req))
  = Resolved answer ->
  match answer with
  | None => True
  | Some object => Zod.parse (createHyperfyOutSchema (body req)) object = None
  end ->
  handler agents req =
  [composeState_call (userMessage_of rt (body req));
   generateObject_call (agentId rt) (context_of st (body req) es ts)
                       (createHyperfyOutSchema (body req));
   respond 500 (Text match answer with
                     | None => "No response from generateMessageResponse"
                     | Some _ => "Error in LLM response, try again"
                     end)].
Proof.
  intros Er Ec Ee Et Eg F.
  rewrite (handler_decide _ _ _ _ _ _ Er Ec Ee Et). unfold decide. rewrite Eg.
  destruct answer as [object|]; [now rewrite F | reflexivity].
Qed.

(** X13.  An answer of the backend that lacks one of the keys [lookAt],
    [emote], [say] and [actions] is refused, whatever its other keys
    hold: the caller gets the 500 response that asks to try again, and
    nothing is stored. *)
Theorem incomplete_answer_is_refused (agents : registry) (req : Request)
    (rt : IAgentRuntime) (st : State) (es ts : list string)
    (props : list (string * value)) :
  resolve agents (agentIdOrName req) = Some rt ->
  composeState rt (userMessage_of rt (body req)) = Resolved st ->
  emotes (body req) = Some es ->
  triggers (body req) = Some ts ->
  generateObject rt (context_of st (body req) es ts) (createHyperfyOutSchema (body req))
  = Resolved (Some (VObj props)) ->
  get props "lookAt" = VUndefined \/ get props "emote" = VUndefined \/
  get props "say" = VUndefined \/ get props "actions" = VUndefined ->
  Zod.parse (createHyperfyOutSchema (body req)) (VObj props) = None /\
  responses (handler agents req) = [(500, Text "Error in LLM response, try again")] /\
  created (handler agents req) = [].
Proof.
  intros Er Ec Ee Et Eg M.
  assert (P : Zod.parse (createHyperfyOutSchema (body req)) (VObj props) = None).
  { unfold createHyperfyOutSchema. rewrite parse_object4.
    rewrite (parse_vocabulary_any (or_empty (triggers (body req)))),
            (parse_vocabulary_any (or_empty (emotes (body req)))).
    destruct M as [M|[M|[M|M]]]; rewrite M; cbn [Zod.parse vocabularySchema].
    - reflexivity.
    - destruct (get props "lookAt"); reflexivity.
    - destruct (get props "lookAt"); try reflexivity; destruct (get props "emote");
        reflexivity.
    - destruct (get props "lookAt"); try reflexivity; destruct (get props "emote");
        try reflexivity; destruct (get props "say"); reflexivity. }
  split; [exact P|].
  rewrite (handler_decide _ _ _ _ _ _ Er Ec Ee Et). unfold decide. rewrite Eg, P.
  now split.
Qed.

(** X14.  No turn calls the backend twice, answers twice, passes more than
    one record to [createMemory], hands more than one stimulus to the
    evaluators or calls [processActions] more than once; and the status of
    a response is 200, 404 or 500. *)
Theorem turn_bounds (agents : registry) (req : Request) :
  let tr := handler agents req in
  backend_calls tr <= 1 /\
  length (responses tr) <= 1 /\
  length (created tr) <= 1 /\
  length (stored tr) <= 1 /\
  length (evaluated tr) <= 1 /\
  length (dispatched tr) <= 1 /\
  forall status p, In (status, p) (responses tr) ->
                   status = 200 \/ status = 404 \/ status = 500.
Proof.
  intros tr. unfold tr.
  turn_cases; cbn [backend_calls responses created stored evaluated dispatched length In];
    (repeat split; try lia);
    intros status p Hin; intuition congruence.
Qed.


End Outcomes.

Section Detached.

Context {host : Host}.

(** X16.  Once the answer of the backend passed validation the caller gets
    it with status 200, right after [createMemory] was called and before it
    settles, whatever the store and the evaluators do later: if the store
    rejects the record, the response is the same and nothing is stored. *)
Theorem answer_does_not_wait_for_store (agents : registry) (req : Request)
    (rt : IAgentRuntime) (st : State) (es ts : list string) (object hfOut : value) :
  let um := userMessage_of rt (body req) in
  let rm := responseMessage_of rt um (decision_of_value hfOut) in
  resolve agents (agentIdOrName req) = Some rt ->
  composeState rt um = Resolved st ->
  emotes (body req) = Some es ->
  triggers (body req) = Some ts ->
  generateObject rt (context_of st (body req) es ts) (createHyperfyOutSchema (body req))
  = Resolved (Some object) ->
  Zod.parse (createHyperfyOutSchema (body req)) object = Some hfOut ->
  (exists later,
      handler agents req =
      ([composeState_call um;
        generateObject_call (agentId rt) (context_of st (body req) es ts)
                            (createHyperfyOutSchema (body req));
        createMemory_call rm;
        respond 200 (Json hfOut)] ++ later)%list /\
      responses later = [] /\ created later = []) /\
  responses (handler agents req) = [(200, Json hfOut)] /\
  (createMemory rt rm = Rejected ->
   stored (handler agents req) = [] /\ evaluated (handler agents req) = []).
Proof.
  intros um rm Er Ec Ee Et Eg Ep.
  rewrite (handler_background agents req rt st es ts object hfOut Er Ec Ee Et Eg Ep).
  fold um. unfold background. fold rm. repeat split.
  - eexists. split; [reflexivity|]. now rewrite responses_settled, created_settled.
  - cbn [responses]. now rewrite responses_settled.
  - unfold settled. now rewrite H.
  - unfold settled. now rewrite H.
Qed.

(** X17.  [processActions] is called exactly when [createMemory] of the
    reply resolved, the evaluators resolved and the first element of
    [actions] is a non-empty string; it is then called once, with the
    stimulus and the reply.  An empty first action, like no action, is
    not dispatched. *)
Theorem dispatch_exactly_when (rt : IAgentRuntime) (um : Message) (st : State)
    (d : Decision) :
  let rm := responseMessage_of rt um d in
  let mem := stimulus rt (msg_userId um) (msg_roomId um) (msg_content um) in
  let tr := background rt um st (value_of_decision d) in
  (dispatched tr = [(mem, [rm])] <->
   createMemory rt rm = Resolved tt /\
   evaluate rt mem st = Resolved tt /\
   exists a rest, actions d = Some (a :: rest) /\ a <> EmptyString) /\
  (dispatched tr = [] \/ dispatched tr = [(mem, [rm])]).
Proof.
  intros rm mem tr. unfold tr, background. cbn [dispatched].
  rewrite decision_of_value_of_decision. fold rm. split; [|apply dispatched_settled].
  unfold settled. fold mem.
  assert (T : truthy (action (msg_content rm)) = true <->
              exists a rest, actions d = Some (a :: rest) /\ a <> EmptyString).
  { unfold rm, responseMessage_of, contentObj_of. cbn [msg_content action].
    destruct (actions d) as [[|a rest]|]; cbn [nth_error truthy].
    - split; [discriminate | intros [a [rest [E _]]]; discriminate E].
    - rewrite negb_true_iff. split.
      + intros N. exists a, rest. split; [reflexivity|]. now apply String.eqb_neq.
      + intros [a' [rest' [[= <- <-] N]]]. now apply String.eqb_neq.
    - split; [discriminate | intros [a [rest [E _]]]; discriminate E]. }
  destruct (createMemory rt rm) as [[]|]; cbn [dispatched];
    [|split; [discriminate | intros [E _]; discriminate E]].
  destruct (evaluate rt mem st) as [[]|]; cbn [dispatched];
    [|split; [discriminate | intros [_ [E _]]; discriminate E]].
  destruct (truthy (action (msg_content rm))); cbn [dispatched].
  - split; [intros _; repeat split; now apply T | reflexivity].
  - split; [discriminate|]. intros [_ [_ E]]. apply T in E. discriminate E.
Qed.

(** X18.  Without an emote, the text of the reply is [say] when there is
    no [lookAt], and otherwise [say], ". Then I looked at " and the
    target; a null [say] is then written as the four letters "null". *)
Theorem text_without_emote (d : Decision) :
  emote d = None ->
  text (contentObj_of d) =
  match lookAt d with
  | None => say d
  | Some l => Some (nullish_or (say d) "null" ++ ". Then I looked at " ++ l)
  end.
Proof.
  intros E. unfold contentObj_of. cbn [text]. rewrite E.
  destruct (lookAt d) as [l|]; [|reflexivity].
  destruct (say d) as [s|]; cbn [append_to nullish_or]; [|reflexivity].
  f_equal. now rewrite append_assoc.
Qed.


End Detached.

(** ** A placeholder in the body *)

Lemma drop_prefix_append (pattern X R : string) :
  String.prefix pattern X = true ->
  drop (String.length pattern) (X ++ R) = drop (String.length pattern) X ++ R.
Proof.
  revert X. induction pattern as [|p pattern IH]; intros X P.
  - cbn [String.length drop]. now destruct X.
  - destruct X as [|x X]; [discriminate P|].
    cbn [String.prefix] in P. destruct (ascii_dec p x); [|discriminate P].
    cbn [String.length String.append drop]. now apply IH.
Qed.

Lemma prefix_length (pattern X : string) :
  String.prefix pattern X = true -> String.length pattern <= String.length X.
Proof.
  revert X. induction pattern as [|p pattern IH]; intros X P; cbn [String.length]; [lia|].
  destruct X as [|x X]; [discriminate P|]. cbn [String.prefix String.length] in *.
  destruct (ascii_dec p x); [|discriminate P]. apply IH in P. lia.
Qed.

Lemma prefix_overrun (pattern X R : string) :
  String.prefix pattern X = false ->
  String.prefix pattern (X ++ R) = true ->
  String.length X < String.length pattern.
Proof.
  revert X. induction pattern as [|p pattern IH]; intros X F T.
  - destruct X; discriminate F.
  - destruct X as [|x X]; cbn [String.length]; [lia|].
    cbn [String.append String.prefix] in *.
    destruct (ascii_dec p x); [|discriminate T]. specialize (IH _ F T). lia.
Qed.

Lemma split_at_length (pattern X before after : string) :
  split_at pattern X = Some (before, after) ->
  String.length pattern <= String.length X.
Proof.
  revert before after. induction X as [|x X IH]; intros before after; cbn [split_at].
  - destruct (String.prefix pattern EmptyString) eqn:P; [|discriminate].
    intros _. now apply prefix_length.
  - destruct (String.prefix pattern (String x X)) eqn:P.
    + intros _. now apply prefix_length.
    + destruct (split_at pattern X) as [[b a]|]; [|discriminate].
      intros _. specialize (IH _ _ eq_refl). cbn [String.length]. lia.
Qed.

(** An occurrence found in a string is the one found when more follows. *)
Lemma split_at_found_append (pattern X R before after : string) :
  split_at pattern X = Some (before, after) ->
  split_at pattern (X ++ R) = Some (before, after ++ R).
Proof.
  revert before. induction X as [|x X IH]; intros before.
  - cbn [split_at String.append]. destruct pattern as [|p pattern]; [|discriminate].
    cbn [String.prefix String.length drop]. intros [= <- <-].
    destruct R; reflexivity.
  - cbn [String.append split_at].
    destruct (String.prefix pattern (String x X)) eqn:P.
    + intros [= <- <-].
      change (String x (X ++ R)) with (String x X ++ R).
      rewrite (prefix_append _ _ _ P). now rewrite (drop_prefix_append _ _ _ P).
    + destruct (split_at pattern X) as [[b a]|] eqn:S; [|discriminate].
      intros [= <- <-]. rewrite (IH _ eq_refl).
      destruct (String.prefix pattern (String x (X ++ R))) eqn:P'; [|reflexivity].
      exfalso. apply split_at_length in S.
      change (String x (X ++ R)) with (String x X ++ R) in P'.
      pose proof (prefix_overrun _ _ _ P P') as L. cbn [String.length] in L.
      pose proof (prefix_length _ _ P') as L'.
      destruct pattern as [|p pattern]; [discriminate P|].
      cbn [String.prefix String.append] in P, P'.
      destruct (ascii_dec p x); [|discriminate P'].
      pose proof (prefix_overrun _ _ _ P P') as L2. cbn [String.length] in S. lia.
Qed.

(** X20.  The placeholders are replaced one after the other, each at its
    first occurrence in the text so far: when the serialised body itself
    holds [{{emotes}}], the joined emotes are written into the body, and
    the placeholder of the template stays in the prompt as it is. *)
Theorem placeholder_in_body_is_taken_first (host : Host) (st : State) (b : Body)
    (es ts : list string) (J1 J2 : string) :
  let J := JSON_stringify_indent b in
  let E := join es "|" in
  let T := join ts "|" in
  dollar_free J = true ->
  dollar_free E = true ->
  dollar_free T = true ->
  split_at "{{emotes}}" J = Some (J1, J2) ->
  occurs "{{triggers}}" (J1 ++ E ++ J2) = false ->
  context_of st b es ts =
  composeContext st
    (before_hyperfy ++ J1 ++ E ++ J2 ++ before_emotes ++ "{{emotes}}" ++
     before_triggers ++ T ++ after_triggers).
Proof.
  intros J E T DJ DE DT SJ OT.
  unfold context_of. fold J E T. f_equal.
  pose (nl := ascii_of_nat 10).
  pose (R2 := before_triggers ++ "{{triggers}}" ++ after_triggers).
  pose (R1 := before_emotes ++ "{{emotes}}" ++ R2).
  assert (S1 : split_at "{{hyperfy}}" hyperfyHandlerTemplate = Some (before_hyperfy, R1))
    by (vm_compute; reflexivity).
  rewrite (replace_at _ _ _ _ _ S1 DJ).
  assert (S2 : split_at "{{emotes}}" (before_hyperfy ++ J ++ R1)
               = Some (before_hyperfy ++ J1, J2 ++ R1)).
  { apply (skip_closed _ _ (substring 0 654 before_hyperfy) _ _ _ nl);
      try (vm_compute; reflexivity).
    now apply split_at_found_append. }
  rewrite (replace_at _ _ _ _ _ S2 DE). rewrite !append_assoc.
  assert (S3 : split_at "{{triggers}}" (before_hyperfy ++ (J1 ++ E ++ J2) ++ R1)
               = Some (before_hyperfy ++ (J1 ++ E ++ J2) ++
                       before_emotes ++ "{{emotes}}" ++ before_triggers,
                       after_triggers)).
  { apply (skip_closed _ _ (substring 0 654 before_hyperfy) _ _ _ nl);
      try (vm_compute; reflexivity).
    apply (skip_open _ (J1 ++ E ++ J2) R1 (drop 1 R1)
             (before_emotes ++ "{{emotes}}" ++ before_triggers)
             (drop 1 (before_emotes ++ "{{emotes}}" ++ before_triggers))
             after_triggers nl);
      try (vm_compute; reflexivity).
    exact OT. }
  rewrite !append_assoc in S3.
  rewrite (replace_at _ _ _ _ _ S3 DT). now rewrite !append_assoc.
Qed.

Lemma placeholder_in_body_is_taken_first_witness :
  @context_of Demo.echoing [] Sample.bodyA ["wave"; "laugh"] ["player1"]
  = before_hyperfy ++ "say " ++ "wave|laugh" ++ " now" ++ before_emotes ++ "{{emotes}}" ++
    before_triggers ++ "player1" ++ after_triggers.
Proof.
  apply (placeholder_in_body_is_taken_first Demo.echoing [] Sample.bodyA
           ["wave"; "laugh"] ["player1"] "say " " now"); reflexivity.
Defined.

(** ** The further properties on the sample agents *)

Lemma register_then_resolve_witness :
  Map_get (registerAgent (Sample.agents true) Demo.twin) "agent-1"
  = Map_get (Sample.agents true) "agent-1".
Proof.
  apply (@register_then_resolve (Sample.answering Sample.silence) (Sample.agents true)
           Demo.twin Sample.bodyA).
  discriminate.
Defined.

Lemma unregister_forgets_witness :
  Map_get (unregisterAgent (registerAgent (Sample.agents true) Demo.twin) Demo.twin)
          "agent-1"
  = Map_get (registerAgent (Sample.agents true) Demo.twin) "agent-1".
Proof.
  apply (unregister_forgets (registerAgent (Sample.agents true) Demo.twin) Demo.twin).
  discriminate.
Defined.

Lemma registry_well_keyed_witness :
  well_keyed (registerAgent [] Demo.twin) /\ well_keyed (unregisterAgent [] Demo.twin).
Proof.
  destruct (registry_well_keyed [] Demo.twin) as [E [R U]].
  split; [exact (R E) | exact (U E)].
Defined.


Lemma register_unregister_witness :
  unregisterAgent (registerAgent (Sample.agents true) Demo.twin) Demo.twin
  = Sample.agents true.
Proof.
  apply (register_unregister (Sample.agents true) Demo.twin).
  simpl. intros [e|f]; [discriminate e | exact f].
Defined.

Lemma resolve_sound_witness :
  In (agentId (Sample.agent true), Sample.agent true) (Sample.agents true) /\
  (agentId (Sample.agent true) = "eliza" \/
   @toLowerCase (Sample.answering Sample.silence) (character_name (Sample.agent true))
   = @toLowerCase (Sample.answering Sample.silence) "eliza").
Proof.
  apply (@resolve_sound (Sample.answering Sample.silence) (Sample.agents true) "eliza"
           (Sample.agent true)).
  - split.
    + constructor; [intros [] | constructor].
    + intros k r [[= <- <-]|[]]. reflexivity.
  - reflexivity.
Defined.

Lemma register_keeps_answers_witness :
  @resolve (Sample.answering Sample.silence)
           (registerAgent (Sample.agents true) Demo.twin) "eliza"
  = Some (Sample.agent true).
Proof.
  apply (@register_keeps_answers (Sample.answering Sample.silence) (Sample.agents true)
           (Sample.agent true) Demo.twin "eliza").
  - simpl. intros [e|f]; [discriminate e | exact f].
  - discriminate.
  - reflexivity.
Defined.

Lemma validation_exact_witness :
  Zod.parse (createHyperfyOutSchema Sample.bodyA)
            (VObj [("say", VStr "hi"); ("note", VNum 7); ("actions", VNull);
                   ("emote", VStr "wave"); ("lookAt", VStr "player1")])
  = Some (value_of_decision Sample.decisionA).
Proof.
  apply (proj2 (validation_exact (Some ["wave"; "laugh"]) (Some ["player1"])
                                 (Some "hyperfy") [] _ _)).
  eexists. exists Sample.decisionA. repeat split.
Defined.

Lemma validated_answer_is_stable_witness :
  Zod.parse (createHyperfyOutSchema Sample.bodyA) (value_of_decision Sample.decisionA)
  = Some (value_of_decision Sample.decisionA).
Proof.
  apply (validated_answer_is_stable Sample.bodyA
           (VObj [("say", VStr "hi"); ("note", VNum 7); ("actions", VNull);
                  ("emote", VStr "wave"); ("lookAt", VStr "player1")])
           (value_of_decision Sample.decisionA)).
  reflexivity.
Defined.

Lemma backend_failure_is_500_witness :
  @handler (Sample.host (Resolved None)) (Sample.agents true)
           (Sample.request "agent-1" Sample.bodyA)
  = [composeState_call (@userMessage_of (Sample.host (Resolved None)) (Sample.agent true)
                                        Sample.bodyA);
     generateObject_call "agent-1"
       (@context_of (Sample.host (Resolved None)) [("agentName", "Eliza")] Sample.bodyA
                    ["wave"; "laugh"] ["player1"])
       (createHyperfyOutSchema Sample.bodyA);
     respond 500 (Text "No response from generateMessageResponse")].
Proof.
  apply (@backend_failure_is_500 (Sample.host (Resolved None)) (Sample.agents true)
           (Sample.request "agent-1" Sample.bodyA) (Sample.agent true)
           [("agentName", "Eliza")] ["wave"; "laugh"] ["player1"] None);
    first [reflexivity | exact I].
Defined.

Lemma incomplete_answer_is_refused_witness :
  responses (@handler (Sample.host (Resolved (Some Demo.noActions))) (Sample.agents true)
                      (Sample.request "agent-1" Sample.bodyA))
  = [(500, Text "Error in LLM response, try again")].
Proof.
  apply (@incomplete_answer_is_refused (Sample.host (Resolved (Some Demo.noActions)))
           (Sample.agents true) (Sample.request "agent-1" Sample.bodyA) (Sample.agent true)
           [("agentName", "Eliza")] ["wave"; "laugh"] ["player1"]
           [("lookAt", VNull); ("emote", VNull); ("say", VStr "hi")]);
    try reflexivity.
  right. right. right. reflexivity.
Defined.


Lemma answer_does_not_wait_for_store_witness :
  responses (@handler (Sample.answering Sample.waving) (Sample.agents false)
                      (Sample.request "agent-1" Sample.bodyA))
  = [(200, Json (value_of_decision Sample.waving))] /\
  stored (@handler (Sample.answering Sample.waving) (Sample.agents false)
                   (Sample.request "agent-1" Sample.bodyA))
  = [].
Proof.
  destruct (@answer_does_not_wait_for_store (Sample.answering Sample.waving)
              (Sample.agents false) (Sample.request "agent-1" Sample.bodyA)
              (Sample.agent false) [("agentName", "Eliza")] ["wave"; "laugh"] ["player1"]
              (value_of_decision Sample.waving) (value_of_decision Sample.waving)
              eq_refl eq_refl eq_refl eq_refl eq_refl eq_refl)
    as [_ [R S]].
  split; [exact R | exact (proj1 (S eq_refl))].
Defined.

Lemma dispatch_exactly_when_witness :
  dispatched (@background (Sample.answering Sample.waving) (Sample.agent true)
                (@userMessage_of (Sample.answering Sample.waving) (Sample.agent true)
                                 Sample.bodyA)
                [] (value_of_decision Sample.waving))
  = [(@stimulus (Sample.answering Sample.waving) (Sample.agent true)
                "uuid:hyperfy" "uuid:hyperfy"
                (msg_content (@userMessage_of (Sample.answering Sample.waving)
                                              (Sample.agent true) Sample.bodyA)),
      [responseMessage_of (Sample.agent true)
         (@userMessage_of (Sample.answering Sample.waving) (Sample.agent true) Sample.bodyA)
         Sample.waving])].
Proof.
  pose proof (@dispatch_exactly_when (Sample.answering Sample.waving)
                (Sample.agent true)
                (@userMessage_of (Sample.answering Sample.waving)
                                 (Sample.agent true) Sample.bodyA)
                [] Sample.waving) as W.
  cbv zeta in W. apply (proj2 (proj1 W)).
  split; [reflexivity|]. split; [reflexivity|].
  exists "WAVE", ["DANCE"]. split; [reflexivity | discriminate].
Defined.

Lemma text_without_emote_witness :
  text (contentObj_of Demo.glance) = Some "null. Then I looked at player1".
Proof. apply (text_without_emote Demo.glance). reflexivity. Defined.


Lemma turn_bounds_witness :
  404 = 200 \/ 404 = 404 \/ 404 = 500.
Proof.
  pose proof (@turn_bounds (Sample.answering Sample.silence) (Sample.agents true)
                (Sample.request "nobody" Sample.bodyA)) as W.
  cbv zeta in W. apply (proj2 (proj2 (proj2 (proj2 (proj2 (proj2 W)))))
                          404 (Text "Agent not found")).
  simpl. left. reflexivity.
Defined.
